(** * signingworker: the message consumer of [signingworker/worker.py]

    A shallow embedding of [SigningConsumer] and the properties of its
    task life cycle: acknowledgement policy, claim conflicts, validation
    failures, the download / verify / sign / upload pipeline, token
    acquisition and the ordering of the calls made on the outside world. *)

From stdpp Require Import gmap strings list fin_maps pretty.
From Stdlib Require Import ZArith Permutation Ascii.

Set Warnings "-register-all".
#[local] Open Scope Z_scope.
#[local] Open Scope string_scope.
#[local] Open Scope list_scope.

(** ** Values *)

(** JSON documents as Python holds them after [json.loads]: the broker
    message body, the task definition, the signing manifest and the answer
    of [createArtifact] are all of this type. *)
Inductive json : Type :=
| JNull
| JBool (b : bool)
| JInt (z : Z)
| JStr (s : string)
| JArr (l : list json)
| JObj (m : gmap string json).

(** The exceptions the consumer raises or tells apart. All of them are
    subclasses of Python's [Exception]. *)
Inductive exn : Type :=
| TaskclusterRestFailure (status_code : Z)
| TaskVerificationError
| ValidationError
| ChecksumMismatchError (expected : json) (got : string) (url : string)
| SigningServerError
| HTTPError (status_code : Z)
| KeyError (key : string)
| IndexError
| TypeError
| IOError (path : string)
| OtherException (name : string).

Inductive Res (A : Type) : Type :=
| Ok (a : A)
| Raise (e : exn).
Arguments Ok {A} a.
Arguments Raise {A} e.

(** An HTTP answer as [requests] returns it. *)
Record Response := { status_code : Z; content : string }.

(** ** Calls on the outside world

    One constructor per call site of [worker.py] that leaves the process.
    [GetManifest] is the [requests.get] of [get_manifest], [Download] the
    one of [download_and_sign_file]; [ValidateTask] marks the call of
    [signingworker.task.validate_task]. In [ReportException] the ids are
    [None] while the local variables still hold Python's [None]. *)
Inductive Event : Type :=
| ClaimTask (task_id run_id : json) (workerGroup workerId : string)
| GetTask (task_id : json)
| ValidateTask (task : json)
| ReportCompleted (task_id run_id : json)
| ReportException (task_id run_id : option json) (reason : string)
| GetManifest (url : string)
| Download (url : string)
| PostToken (url slave_ip : string) (duration : Z) (auth : list string)
| SignTool (cmd : list string) (cwd : string)
| CreateArtifact (task_id run_id : json) (dest content_type expires : string)
| PutFile (abs_filename file_content : string) (put_url : json)
          (content_type : string)
| Ack.

(** ** The consumer object and the process state *)

(** The attributes [__init__] sets on [self]. [tc_queue] stands for the
    task-tracking client built from [taskcluster_config]. *)
Record Self := {
  connection : string;
  exchange : string;
  queue_name : string;
  worker_type : string;
  routing_key : string;
  tc_queue : json;
  signing_servers : list string;
  signing_formats : list string;
  signing_server_auth : list string;
  supported_signing_scopes : list string;
  tools_checkout : string;
  cert : string
}.

(** What a run can change: the consumer object, the local file system
    (regular files by absolute path, and the directories made by
    [tempfile]), the counter behind [tempfile]'s fresh names and the number
    of draws taken from [random]. *)
Record Store := {
  self : Self;
  files : gmap string string;
  dirs : gset string;
  tmp_count : nat;
  rng_count : nat
}.

(** The outside world. Remote calls answer as a function of the calls made
    so far, so that the same request may be answered differently later on
    (a retry, a second worker); each may raise. The remaining fields are
    the pure helpers of other modules. *)
Record Env := {
  tc_claimTask : list Event -> json -> json -> string -> string -> Res json;
  tc_task : list Event -> json -> Res json;
  tc_reportCompleted : list Event -> json -> json -> Res json;
  tc_reportException :
    list Event -> option json -> option json -> string -> Res json;
  tc_createArtifact :
    list Event -> json -> json -> string -> string -> Res json;
  tc_putFile : list Event -> string -> json -> string -> Res unit;
  requests_get : list Event -> string -> Res Response;
  requests_post : list Event -> string -> Res Response;
  sh_python :
    list Event -> gmap string string -> list string -> string -> Res string;
  validate_task : json -> list string -> Res unit;
  get_hash : string -> string;
  my_ip : string;
  urlsplit_path : string -> string;
  json_loads : string -> Res json;
  json_dumps : json -> string;
  format_json : json -> string;
  arrow_expires : list Event -> string;
  random_draw : nat -> nat
}.

(** ** The monad of the embedding

    A computation reads the calls made before it started and the store, and
    returns a result or an exception, the new store and the calls it made
    itself, oldest first. *)
Definition M (A : Type) : Type :=
  list Event -> Store -> Res A * Store * list Event.

Definition ret {A} (a : A) : M A := fun _ st => (Ok a, st, []).

Definition raise {A} (e : exn) : M A := fun _ st => (Raise e, st, []).

Definition bind {A B} (m : M A) (f : A -> M B) : M B :=
  fun h st =>
    match m h st with
    | (Ok a, st1, e1) =>
        match f a (h ++ e1) st1 with
        | (r, st2, e2) => (r, st2, e1 ++ e2)
        end
    | (Raise x, st1, e1) => (Raise x, st1, e1)
    end.

(** [try: m except Exception as x: k x] *)
Definition catch {A} (m : M A) (k : exn -> M A) : M A :=
  fun h st =>
    match m h st with
    | (Ok a, st1, e1) => (Ok a, st1, e1)
    | (Raise x, st1, e1) =>
        match k x (h ++ e1) st1 with
        | (r, st2, e2) => (r, st2, e1 ++ e2)
        end
    end.

Definition lift {A} (r : Res A) : M A := fun _ st => (r, st, []).

Definition gets {A} (f : Store -> A) : M A := fun _ st => (Ok (f st), st, []).

Definition modify (f : Store -> Store) : M unit :=
  fun _ st => (Ok tt, f st, []).

(** A call on the outside world: the answer depends on the calls so far. *)
Definition call {A} (ev : Event) (answer : list Event -> Res A) : M A :=
  fun h st => (answer h, st, [ev]).

Declare Scope m_scope.
Delimit Scope m_scope with M.
Notation "x <- m ;; k" := (bind m (fun x => k))
  (at level 100, m at next level, right associativity) : m_scope.
Notation "m ;;; k" := (bind m (fun _ => k))
  (at level 100, right associativity) : m_scope.
#[local] Open Scope m_scope.

Definition result {A} (x : Res A * Store * list Event) : Res A := x.1.1.
Definition store_of {A} (x : Res A * Store * list Event) : Store := x.1.2.
Definition events {A} (x : Res A * Store * list Event) : list Event := x.2.

(** [prepend e1 x]: the run [x] seen from a caller that made the calls
    [e1] before it. *)
Definition prepend {A} (e1 : list Event) (x : Res A * Store * list Event)
    : Res A * Store * list Event :=
  (result x, store_of x, e1 ++ events x).

(** ** Python on JSON values and strings *)

(** [j[k]] for a string key. *)
Definition getitem (j : json) (k : string) : Res json :=
  match j with
  | JObj m => match m !! k with Some v => Ok v | None => Raise (KeyError k) end
  | _ => Raise TypeError
  end.

(** [j[-1]] *)
Definition getitem_last (j : json) : Res json :=
  match j with
  | JArr l => match last l with Some v => Ok v | None => Raise IndexError end
  | JStr s =>
      match last (String.list_ascii_of_string s) with
      | Some c => Ok (JStr (String c EmptyString))
      | None => Raise IndexError
      end
  | JObj _ => Raise (KeyError "-1")
  | _ => Raise TypeError
  end.

(** [j[k] = v] *)
Definition setitem (j : json) (k : string) (v : json) : Res json :=
  match j with
  | JObj m => Ok (JObj (<[k := v]> m))
  | _ => Raise TypeError
  end.

(** What [for e in j] goes through. *)
Definition iter_json (j : json) : Res (list json) :=
  match j with
  | JArr l => Ok l
  | JObj m => Ok (JStr <$> (map_to_list m).*1)
  | JStr s => Ok ((fun c => JStr (String c EmptyString)) <$> String.list_ascii_of_string s)
  | _ => Raise TypeError
  end.

(** [got == checksum] for a [str] on the left. *)
Definition str_eq_json (got : string) (checksum : json) : bool :=
  match checksum with
  | JStr s => bool_decide (got = s)
  | _ => false
  end.

(** [s.split(sep)] for a one-character separator. *)
Fixpoint split (sep : ascii) (s : string) : list string :=
  match s with
  | EmptyString => [EmptyString]
  | String c s' =>
      if bool_decide (c = sep) then EmptyString :: split sep s'
      else match split sep s' with
           | w :: ws => String c w :: ws
           | [] => [String c EmptyString]
           end
  end.

(** [sep.join(l)] *)
Fixpoint join (sep : string) (l : list string) : string :=
  match l with
  | [] => EmptyString
  | [w] => w
  | w :: ws => w +:+ sep +:+ join sep ws
  end.

Definition ends_with_slash (s : string) : bool :=
  match last (String.list_ascii_of_string s) with
  | Some c => bool_decide (c = "/"%char)
  | None => false
  end.

(** [os.path.join(a, b)] *)
Definition path_join (a b : string) : string :=
  if String.prefix "/" b then b
  else if bool_decide (a = EmptyString) || ends_with_slash a then a +:+ b
  else a +:+ "/" +:+ b.

Definition is_error_status (code : Z) : bool :=
  Z.leb 400 code && Z.ltb code 600.

(** [r.raise_for_status()] *)
Definition raise_for_status (r : Response) : M unit :=
  if is_error_status (status_code r)
  then raise (HTTPError (status_code r))
  else ret tt.

(** ** The file system *)

Definition tmp_name (n : nat) : string := "/tmp/tmp" +:+ pretty n.

(** [tempfile.mkdtemp()] *)
Definition mkdtemp : M string :=
  fun _ st =>
    let d := tmp_name (tmp_count st) in
    (Ok d,
     {| self := self st; files := files st; dirs := {[d]} ∪ dirs st;
        tmp_count := S (tmp_count st); rng_count := rng_count st |},
     []).

(** [tempfile.mkstemp()]: the name of a new, empty file. *)
Definition mkstemp : M string :=
  fun _ st =>
    let f := tmp_name (tmp_count st) in
    (Ok f,
     {| self := self st; files := <[f := EmptyString]> (files st);
        dirs := dirs st;
        tmp_count := S (tmp_count st); rng_count := rng_count st |},
     []).

Definition under (dir path : string) : bool := String.prefix (dir +:+ "/") path.

(** [shutil.rmtree(d)] *)
Definition rmtree (d : string) : M unit :=
  modify (fun st =>
    {| self := self st;
       files := filter (fun kv => under d kv.1 = false) (files st);
       dirs := dirs st ∖ {[d]};
       tmp_count := tmp_count st; rng_count := rng_count st |}).

(** The directory a path puts its file in and the name it gives it: what
    comes before and after the last slash. *)
Definition dir_part (path : string) : string :=
  join "/" (removelast (split "/" path)).

Definition name_part (path : string) : string :=
  default EmptyString (last (split "/" path)).

(** A name a file can be created under: not empty, not [.] or [..], without
    a NUL character and of at most 255 bytes. *)
Definition valid_name (name : string) : bool :=
  negb (bool_decide (name ∈ [EmptyString; "."; ".."]))
  && negb (bool_decide ("000"%char ∈ String.list_ascii_of_string name))
  && (String.length name <=? 255)%nat.

(** A path that [open(path, "wb")] opens: it is not the path of a
    directory, and it is that of a file that exists already or gives a valid
    name in a directory that exists. [dirs] holds the directories that
    exist, under the paths the program uses for them. *)
Definition writable (st : Store) (path : string) : bool :=
  valid_name (name_part path)
  && negb (bool_decide (path ∈ dirs st))
  && (bool_decide (is_Some (files st !! path))
      || bool_decide (dir_part path ∈ dirs st)).

(** [open(path, "wb")] followed by the writes: the file holds [data]. Where
    the path cannot be opened, [open] raises [IOError]. *)
Definition write_file (path data : string) : M unit :=
  fun _ st =>
    if writable st path
    then (Ok tt,
          {| self := self st; files := <[path := data]> (files st);
             dirs := dirs st;
             tmp_count := tmp_count st; rng_count := rng_count st |},
          [])
    else (Raise (IOError path), st, []).

Definition read_file (path : string) : M string :=
  fun _ st =>
    match files st !! path with
    | Some data => (Ok data, st, [])
    | None => (Raise (IOError path), st, [])
    end.

(** ** [SigningConsumer] *)

(** [__init__] *)
Definition init (connection exchange queue_name worker_type : string)
    (taskcluster_config : json) (signing_servers : list string)
    (signing_server_auth supported_signing_scopes : list string)
    (tools_checkout : string) : Self :=
  {| connection := connection;
     exchange := exchange;
     queue_name := queue_name;
     worker_type := worker_type;
     routing_key := "*.*.*.*.*.*." +:+ worker_type +:+ ".#";
     tc_queue := taskcluster_config;
     signing_servers := signing_servers;
     signing_formats := ["mar"; "gpg"];
     signing_server_auth := signing_server_auth;
     supported_signing_scopes := supported_signing_scopes;
     tools_checkout := tools_checkout;
     cert := path_join tools_checkout "release/signing/host.cert" |}.

Definition set_signing_servers (l : list string) (s : Self) : Self :=
  {| connection := connection s;
     exchange := exchange s;
     queue_name := queue_name s;
     worker_type := worker_type s;
     routing_key := routing_key s;
     tc_queue := tc_queue s;
     signing_servers := l;
     signing_formats := signing_formats s;
     signing_server_auth := signing_server_auth s;
     supported_signing_scopes := supported_signing_scopes s;
     tools_checkout := tools_checkout s;
     cert := cert s |}.

(** *** [redo.retriable]

    [retry_more k action] runs [action] and, each time it raises, runs it
    again, at most [k] more times; the exception of the last run is the one
    that leaves. The decorator is used with [attempts=10] only, so the
    [attempts=0] case of [redo] (no call at all) does not arise. The sleep
    between two attempts is not part of the model. *)
Fixpoint retry_more {A} (more : nat) (action : M A) : M A :=
  match more with
  | O => action
  | S k => catch action (fun _ => retry_more k action)
  end.

Definition retriable {A} (attempts : nat) (action : M A) : M A :=
  retry_more (attempts - 1) action.

Definition attempts : nat := 10.

Section Consumer.

Variable env : Env.

(** *** [get_manifest] *)

Definition get_manifest_once (url : json) : M json :=
  match url with
  | JStr u =>
      r <- call (GetManifest u) (fun h => requests_get env h u);;
      raise_for_status r;;;
      lift (json_loads env (content r))
  | _ => raise (OtherException "MissingSchema")
  end.

Definition get_manifest (url : json) : M json :=
  retriable attempts (get_manifest_once url).

(** *** [create_artifact] *)

Definition octet_stream : string := "application/octet-stream".

Definition create_artifact (task_id run_id : json) (dest abs_filename : string)
    (content_type : string) : M unit :=
  res <- (fun h st =>
            (tc_createArtifact env h task_id run_id dest content_type, st,
             [CreateArtifact task_id run_id dest content_type
                (arrow_expires env h)]));;
  put_url <- lift (getitem res "putUrl");;
  data <- read_file abs_filename;;
  call (PutFile abs_filename data put_url content_type)
       (fun h => tc_putFile env h data put_url content_type).

(** *** [get_token] *)

(** [x[i], x[j] = x[j], x[i]] *)
Definition swap (x : list string) (i j : nat) : list string :=
  match x !! i, x !! j with
  | Some a, Some b => <[j := a]> (<[i := b]> x)
  | _, _ => x
  end.

(** [random.shuffle]: for [i] from [len(x) - 1] down to [1], swap [x[i]]
    with [x[j]] for a random [j] in [0 .. i]. The [c]-th draw of the
    process is [random_draw env c], reduced to the range. *)
Fixpoint shuffle_from (i c : nat) (x : list string) : list string :=
  match i with
  | O => x
  | S i' => shuffle_from i' (S c) (swap x i (random_draw env c mod S i)%nat)
  end.

Definition shuffle (c : nat) (x : list string) : list string :=
  shuffle_from (length x - 1) c x.

(** [random.shuffle(self.signing_servers)]: the list object of [self] is
    reordered in place. *)
Definition shuffle_signing_servers : M unit :=
  modify (fun st =>
    {| self := set_signing_servers
                 (shuffle (rng_count st) (signing_servers (self st))) (self st);
       files := files st; dirs := dirs st; tmp_count := tmp_count st;
       rng_count := (rng_count st + (length (signing_servers (self st)) - 1))%nat
    |}).

Definition token_url (server : string) : string :=
  "https://" +:+ server +:+ "/token".

Definition token_request (auth : list string) (server : string) : Event :=
  PostToken (token_url server) (my_ip env) (5 * 60) auth.

(** The [for server in self.signing_servers] loop; [None] when the list is
    exhausted with [token] still unset. *)
Fixpoint token_loop (auth : list string) (servers : list string)
    : M (option string) :=
  match servers with
  | [] => ret None
  | server :: rest =>
      r <- call (token_request auth server)
                (fun h => requests_post env h (token_url server));;
      raise_for_status r;;;
      if bool_decide (content r = EmptyString)
      then token_loop auth rest
      else ret (Some (content r))
  end.

(** The body of [get_token], one attempt. *)
Definition get_token_once (output_file : string) : M unit :=
  shuffle_signing_servers;;;
  servers <- gets (fun st => signing_servers (self st));;
  auth <- gets (fun st => signing_server_auth (self st));;
  token <- token_loop auth servers;;
  match token with
  | None => raise SigningServerError
  | Some t => write_file output_file t
  end.

Definition get_token (output_file : string) : M unit :=
  retriable attempts (get_token_once output_file).

(** *** [sign_file] *)

Definition signtool_cmd (s : Self) (nonce token to from_ : string)
    : list string :=
  [path_join (tools_checkout s) "release/signing/signtool.py";
   "-n"; nonce; "-t"; token; "-c"; cert s]
  ++ flat_map (fun h => ["-H"; h]) (signing_servers s)
  ++ flat_map (fun f => ["-f"; f]) (signing_formats s)
  ++ ["-o"; to; from_].

(** The signing tool is a subprocess run in [work_dir]; it is not part of
    this repository, and its run is modelled by what [sign_file] relies on:
    when it exits with status 0 it has written its output at [to], and any
    other exit raises. What else the tool writes in its working directory,
    such as the nonce file it is handed, is not modelled. *)
Definition sign_file (work_dir from_ : string) (to : option string) : M unit :=
  let to := default from_ to in
  let token := path_join work_dir "token" in
  let nonce := path_join work_dir "nonce" in
  get_token token;;;
  s <- gets self;;
  let cmd := signtool_cmd s nonce token to from_ in
  fs <- gets files;;
  out <- call (SignTool cmd work_dir)
              (fun h => sh_python env h fs cmd work_dir);;
  modify (fun st =>
    {| self := self st;
       files := <[path_join work_dir to := out]> (files st);
       dirs := dirs st; tmp_count := tmp_count st; rng_count := rng_count st |}).

(** *** [download_and_sign_file] *)

Definition url_filename (url : string) : string :=
  default EmptyString (last (split "/" (urlsplit_path env url))).

Definition download_and_sign_file (task_id run_id : json) (url : string)
    (checksum : json) : M string :=
  work_dir <- mkdtemp;;
  let filename := url_filename url in
  let abs_filename := path_join work_dir filename in
  r <- call (Download url) (fun h => requests_get env h url);;
  raise_for_status r;;;
  write_file abs_filename (content r);;;
  data <- read_file abs_filename;;
  let got_checksum := get_hash env data in
  if negb (str_eq_json got_checksum checksum)
  then
    rmtree work_dir;;;
    raise (ChecksumMismatchError checksum got_checksum url)
  else
    sign_file work_dir filename None;;;
    create_artifact task_id run_id ("public/env/" +:+ filename) abs_filename
      octet_stream;;;
    ret abs_filename.

(** *** [sign] *)

(** The body of [for e in signing_manifest]; returns the entry as the body
    leaves it. *)
Definition sign_entry (task_id run_id : json) (url_prefix : string) (e : json)
    : M json :=
  mar <- lift (getitem e "mar");;
  let file_url := url_prefix +:+ "/" +:+ format_json env mar in
  checksum <- lift (getitem e "hash");;
  abs_filename <- download_and_sign_file task_id run_id file_url checksum;;
  data <- read_file abs_filename;;
  e1 <- lift (setitem e "hash" (JStr (get_hash env data)));;
  lift (setitem e1 "size" (JInt (Z.of_nat (String.length data)))).

(** The loop, over the entries still to go through; returns them as the
    loop leaves them. *)
Fixpoint sign_entries (task_id run_id : json) (url_prefix : string)
    (entries : list json) : M (list json) :=
  match entries with
  | [] => ret []
  | e :: rest =>
      e' <- sign_entry task_id run_id url_prefix e;;
      rest' <- sign_entries task_id run_id url_prefix rest;;
      ret (e' :: rest')
  end.

Definition as_str (j : json) : Res string :=
  match j with
  | JStr s => Ok s
  | _ => Raise (OtherException "AttributeError")
  end.

Definition manifest_json : string := "public/env/manifest.json".

Definition sign (task_id run_id task : json) : M unit :=
  payload <- lift (getitem task "payload");;
  manifest_url <- lift (getitem payload "signingManifest");;
  signing_manifest <- get_manifest manifest_url;;
  u <- lift (as_str manifest_url);;
  let url_prefix := join "/" (removelast (split "/" u)) in
  entries <- lift (iter_json signing_manifest);;
  entries' <- sign_entries task_id run_id url_prefix entries;;
  let signing_manifest' :=
    match signing_manifest with
    | JArr _ => JArr entries'
    | other => other
    end in
  manifest_file <- mkstemp;;
  write_file manifest_file (json_dumps env signing_manifest');;;
  create_artifact task_id run_id manifest_json manifest_file
    "application/json".

(** *** [process_message] *)

Definition body_task_id (body : json) : Res json :=
  match getitem body "status" with
  | Ok status => getitem status "taskId"
  | Raise x => Raise x
  end.

Definition body_run_id (body : json) : Res json :=
  match getitem body "status" with
  | Ok status =>
      match getitem status "runs" with
      | Ok runs =>
          match getitem_last runs with
          | Ok run => getitem run "runId"
          | Raise x => Raise x
          end
      | Raise x => Raise x
      end
  | Raise x => Raise x
  end.

(** The [try] block. *)
Definition process_message_try (body : json) : M unit :=
  task_id <- lift (body_task_id body);;
  run_id <- lift (body_run_id body);;
  wt <- gets (fun st => worker_type (self st));;
  call (ClaimTask task_id run_id wt wt)
       (fun h => tc_claimTask env h task_id run_id wt wt);;;
  task <- call (GetTask task_id) (fun h => tc_task env h task_id);;
  task_graph_id <- lift (getitem task "taskGroupId");;
  scopes <- gets (fun st => supported_signing_scopes (self st));;
  call (ValidateTask task) (fun _ => validate_task env task scopes);;;
  sign task_id run_id task;;;
  call (ReportCompleted task_id run_id)
       (fun h => tc_reportCompleted env h task_id run_id);;;
  ret tt.

(** The values of the locals [task_id] and [run_id] when a handler runs:
    [None] until the assignment has been reached. *)
Definition local_task_id (body : json) : option json :=
  match body_task_id body with Ok t => Some t | Raise _ => None end.

Definition local_run_id (body : json) : option json :=
  match body_task_id body, body_run_id body with
  | Ok _, Ok r => Some r
  | _, _ => None
  end.

Definition malformed_payload : string := "malformed-payload".

(** The [except] clauses. *)
Definition process_message_except (body : json) (x : exn) : M unit :=
  match x with
  | TaskclusterRestFailure code =>
      if bool_decide (code = 409) then ret tt else raise x
  | TaskVerificationError | ValidationError =>
      call (ReportException (local_task_id body) (local_run_id body)
              malformed_payload)
           (fun h => tc_reportException env h (local_task_id body)
                       (local_run_id body) malformed_payload);;;
      ret tt
  | _ => ret tt
  end.

Definition message_ack : M unit := call Ack (fun _ => Ok tt).

Definition process_message (body : json) : M unit :=
  catch (process_message_try body) (process_message_except body);;;
  message_ack.

End Consumer.

(** ** The order of calls within one message

    The phases a message goes through, read off the calls made so far, and
    the calls each phase admits. [run] follows a list of calls and is
    [None] as soon as a call comes out of turn. *)
Inductive Phase : Type :=
| Received
| Claimed
| Fetched
| Validated
| ManifestRequested
| Downloaded
| TokenRequested
| Signed
| ArtifactCreated
| Uploaded
| ManifestCreated
| ManifestUploaded
| CompletionReported
| ExceptionReported
| Acked.

Definition step (p : Phase) (ev : Event) : option Phase :=
  match ev, p with
  | ClaimTask _ _ _ _, Received => Some Claimed
  | GetTask _, Claimed => Some Fetched
  | ValidateTask _, Fetched => Some Validated
  | GetManifest _, (Validated | ManifestRequested) => Some ManifestRequested
  | Download _, (ManifestRequested | Uploaded) => Some Downloaded
  | PostToken _ _ _ _, (Downloaded | TokenRequested) => Some TokenRequested
  | SignTool _ _, TokenRequested => Some Signed
  | CreateArtifact _ _ _ ct _, Signed =>
      if bool_decide (ct = octet_stream) then Some ArtifactCreated else None
  | PutFile _ _ _ ct, ArtifactCreated =>
      if bool_decide (ct = octet_stream) then Some Uploaded else None
  | CreateArtifact _ _ dest ct _, (ManifestRequested | Uploaded) =>
      if bool_decide (dest = manifest_json) && bool_decide (ct = "application/json")
      then Some ManifestCreated else None
  | PutFile _ _ _ ct, ManifestCreated =>
      if bool_decide (ct = "application/json")
      then Some ManifestUploaded else None
  | ReportCompleted _ _, ManifestUploaded => Some CompletionReported
  | ReportException _ _ _, (ExceptionReported | Acked | Received) => None
  | ReportException _ _ _, _ => Some ExceptionReported
  | Ack, Acked => None
  | Ack, _ => Some Acked
  | _, _ => None
  end.

Fixpoint run (p : Phase) (evs : list Event) : option Phase :=
  match evs with
  | [] => Some p
  | ev :: evs' =>
      match step p ev with
      | Some p' => run p' evs'
      | None => None
      end
  end.

(** Kinds of calls. *)
Definition is_claim (ev : Event) : bool :=
  match ev with ClaimTask _ _ _ _ => true | _ => false end.
Definition is_get_task (ev : Event) : bool :=
  match ev with GetTask _ => true | _ => false end.
Definition is_validate (ev : Event) : bool :=
  match ev with ValidateTask _ => true | _ => false end.
Definition is_get_manifest (ev : Event) : bool :=
  match ev with GetManifest _ => true | _ => false end.
Definition is_download (ev : Event) : bool :=
  match ev with Download _ => true | _ => false end.
Definition is_post_token (ev : Event) : bool :=
  match ev with PostToken _ _ _ _ => true | _ => false end.
Definition is_sign_tool (ev : Event) : bool :=
  match ev with SignTool _ _ => true | _ => false end.
(** Creating an artifact or sending its content. *)
Definition is_upload (ev : Event) : bool :=
  match ev with
  | CreateArtifact _ _ _ _ _ | PutFile _ _ _ _ => true
  | _ => false
  end.
(** The upload of a signed file, as opposed to the manifest's. *)
Definition is_file_upload (ev : Event) : bool :=
  match ev with
  | CreateArtifact _ _ _ ct _ | PutFile _ _ _ ct =>
      bool_decide (ct = octet_stream)
  | _ => false
  end.
Definition is_manifest_sent (ev : Event) : bool :=
  match ev with
  | PutFile _ _ _ ct => bool_decide (ct = "application/json")
  | _ => false
  end.
Definition is_report_completed (ev : Event) : bool :=
  match ev with ReportCompleted _ _ => true | _ => false end.
Definition is_report_exception (ev : Event) : bool :=
  match ev with ReportException _ _ _ => true | _ => false end.
Definition is_ack (ev : Event) : bool :=
  match ev with Ack => true | _ => false end.

(** Every call of kind [B] in [evs] comes after a call of kind [A]. *)
Definition precedes (A B : Event -> bool) (evs : list Event) : Prop :=
  forall j b, evs !! j = Some b -> B b = true ->
    exists i a, (i < j)%nat /\ evs !! i = Some a /\ A a = true.

(** Every call of kind [B] in [evs] comes after a call of kind [A], with no
    call of kind [C] between the two. *)
Definition precedes_since (A B C : Event -> bool) (evs : list Event) : Prop :=
  forall j b, evs !! j = Some b -> B b = true ->
    exists i a, (i < j)%nat /\ evs !! i = Some a /\ A a = true /\
      forall k c, (i < k < j)%nat -> evs !! k = Some c -> C c = false.

(** No call of kind [B] comes after a call of kind [A]. *)
Definition nothing_after (A B : Event -> bool) (evs : list Event) : Prop :=
  forall i j a b, evs !! i = Some a -> A a = true ->
    evs !! j = Some b -> B b = true -> (j < i)%nat.

(** [traces m p Q]: started in phase [p], every run of [m] makes calls that
    come in turn, and its outcome and the phase reached satisfy [Q]. *)
Definition traces {A} (m : M A) (p : Phase) (Q : Res A -> Phase -> Prop)
    : Prop :=
  forall h st, exists p',
    run p (events (m h st)) = Some p' /\ Q (result (m h st)) p'.

(** The phases in which the files of the manifest are worked on. *)
Definition in_files (p : Phase) : bool :=
  match p with
  | ManifestRequested | Downloaded | TokenRequested | Signed
  | ArtifactCreated | Uploaded => true
  | _ => false
  end.

(** Between two files. *)
Definition between_files (p : Phase) : bool :=
  match p with
  | ManifestRequested | Uploaded => true
  | _ => false
  end.

(** A computation that makes no call. *)
Definition silent {A} (m : M A) : Prop := forall h st, events (m h st) = [].

Definition is_ok {A} (r : Res A) : bool :=
  match r with Ok _ => true | Raise _ => false end.

(** The phases of [get_manifest]. *)
Definition fetching (p : Phase) : bool :=
  match p with Validated | ManifestRequested => true | _ => false end.

(** The phases of [get_token]. *)
Definition asking_token (p : Phase) : bool :=
  match p with Downloaded | TokenRequested => true | _ => false end.

(** The phases in which [reportException] may follow. *)
Definition reportable (p : Phase) : bool :=
  match p with Received | ExceptionReported | Acked => false | _ => true end.

(** The exceptions of the second [except] clause. *)
Definition is_verification_error (x : exn) : bool :=
  match x with TaskVerificationError | ValidationError => true | _ => false end.

(** Sets of phases: the claim has been made; the task has been fetched; it
    has been validated; a signed file is being uploaded; the manifest has
    been sent; the outcome has been reported or the message acknowledged. *)
Definition after_claim (p : Phase) : bool :=
  match p with Received | Acked => false | _ => true end.
Definition after_fetch (p : Phase) : bool :=
  match p with
  | Received | Claimed | ExceptionReported | Acked => false
  | _ => true
  end.
Definition after_validate (p : Phase) : bool :=
  match p with
  | Received | Claimed | Fetched | ExceptionReported | Acked => false
  | _ => true
  end.
Definition uploading_file (p : Phase) : bool :=
  match p with Signed | ArtifactCreated => true | _ => false end.
Definition manifest_sent (p : Phase) : bool :=
  match p with ManifestUploaded => true | _ => false end.
Definition reported (p : Phase) : bool :=
  match p with
  | CompletionReported | ExceptionReported | Acked => true
  | _ => false
  end.

Definition is_fetch (ev : Event) : bool := is_get_manifest ev || is_download ev.
Definition not_post_token (ev : Event) : bool := negb (is_post_token ev).
Definition not_upload (ev : Event) : bool := negb (is_upload ev).

(** The calls that belong to the signing work proper. *)
Definition is_signing_work (ev : Event) : bool :=
  is_fetch ev || is_post_token ev || is_sign_tool ev || is_upload ev.

(** [emits P m]: every call made by [m] satisfies [P]. *)
Definition emits {A} (P : Event -> Prop) (m : M A) : Prop :=
  forall h st, Forall P (events (m h st)).

(** ** The manifest

    [entry_updated e e']: both are objects and agree on every key other than
    ["hash"] and ["size"]. [manifest_preserved input output]: for a list,
    the same number of entries, each updated in its place; a document that
    is not a list is left as it is. *)
Definition entry_updated (e e' : json) : Prop :=
  exists m m' : gmap string json,
    e = JObj m /\ e' = JObj m' /\
    forall k : string, k <> "hash" -> k <> "size" -> m' !! k = m !! k.

Definition manifest_preserved (input output : json) : Prop :=
  match input, output with
  | JArr l, JArr l' => Forall2 entry_updated l l'
  | _, _ => output = input
  end.

(** ** The working directory of a file

    The directory [download_and_sign_file] makes when it starts in [st], and
    the store once the download has been written there. *)
Definition work_dir_of (st : Store) : string := tmp_name (tmp_count st).

Definition downloaded (st : Store) (abs_filename data : string) : Store :=
  {| self := self st;
     files := <[abs_filename := data]> (files st);
     dirs := {[work_dir_of st]} ∪ dirs st;
     tmp_count := S (tmp_count st);
     rng_count := rng_count st |}.

(** The same outside world with other draws of the random generator. *)
Definition with_random_draw (draws : nat -> nat) (env : Env) : Env :=
  {| tc_claimTask := tc_claimTask env;
     tc_task := tc_task env;
     tc_reportCompleted := tc_reportCompleted env;
     tc_reportException := tc_reportException env;
     tc_createArtifact := tc_createArtifact env;
     tc_putFile := tc_putFile env;
     requests_get := requests_get env;
     requests_post := requests_post env;
     sh_python := sh_python env;
     validate_task := validate_task env;
     get_hash := get_hash env;
     my_ip := my_ip env;
     urlsplit_path := urlsplit_path env;
     json_loads := json_loads env;
     json_dumps := json_dumps env;
     format_json := format_json env;
     arrow_expires := arrow_expires env;
     random_draw := draws |}.

(** ** Token requests

    What one answer to a token request means for the loop of [get_token]:
    an exception when the request raised or was answered with an error
    status, no token when the body is empty, the token otherwise. *)
Definition token_answer (a : Res Response) : Res (option string) :=
  match a with
  | Raise x => Raise x
  | Ok r =>
      if is_error_status (status_code r) then Raise (HTTPError (status_code r))
      else if bool_decide (content r = EmptyString) then Ok None
      else Ok (Some (content r))
  end.

(** What one answer to the manifest request means for [get_manifest]: an
    exception when the request raised, was answered with an error status or
    has a body that does not parse, the parsed body otherwise. *)
Definition manifest_answer (env : Env) (a : Res Response) : Res json :=
  match a with
  | Raise x => Raise x
  | Ok r =>
      if is_error_status (status_code r) then Raise (HTTPError (status_code r))
      else json_loads env (content r)
  end.

(** The answer to the [i]-th request of a call of [get_manifest] that
    starts after the calls [h], the requests before it having been made. *)
Definition nth_manifest_answer (env : Env) (u : string) (h : list Event)
    (i : nat) : Res json :=
  manifest_answer env
    (requests_get env (h ++ replicate i (GetManifest u)) u).

(** The answer to the [i]-th request of a pass over [servers] that starts
    after the calls [h], the requests before it having been made. *)
Definition nth_answer (env : Env) (auth servers : list string)
    (h : list Event) (i : nat) : option (Res (option string)) :=
  match servers !! i with
  | Some server =>
      Some (token_answer
              (requests_post env
                 (h ++ (token_request env auth <$> take i servers))
                 (token_url server)))
  | None => None
  end.

(** The calls made and the store reached when [action] has been run [k]
    times in a row and has raised each time; [None] when one of these runs
    returned. *)
Fixpoint after_failures {A} (action : M A) (k : nat) (h : list Event)
    (st : Store) : option (list Event * Store) :=
  match k with
  | O => Some (h, st)
  | S k' =>
      match action h st with
      | (Raise _, st1, e1) => after_failures action k' (h ++ e1) st1
      | (Ok _, _, _) => None
      end
  end.

(** ** The configuration

    [same_configuration s s']: the attributes of the consumer hold the same
    values in [s'] as in [s], the signing servers up to their order. *)
Definition same_configuration (s s' : Self) : Prop :=
  connection s' = connection s /\
  exchange s' = exchange s /\
  queue_name s' = queue_name s /\
  worker_type s' = worker_type s /\
  routing_key s' = routing_key s /\
  tc_queue s' = tc_queue s /\
  Permutation (signing_servers s') (signing_servers s) /\
  signing_formats s' = signing_formats s /\
  signing_server_auth s' = signing_server_auth s /\
  supported_signing_scopes s' = supported_signing_scopes s /\
  tools_checkout s' = tools_checkout s /\
  cert s' = cert s.

Definition keeps_configuration {A} (m : M A) : Prop :=
  forall h st, same_configuration (self st) (self (store_of (m h st))).

(** ** How a message ends

    The outcome of the [try] block as the [except] clauses tell it apart:
    the task was completed; a task-tracking call failed with HTTP 409; it
    failed with another status; the task was rejected by validation, and the
    report of that went through or not; anything else. *)
Inductive Outcome : Type :=
| Completed
| Conflict
| RestFailure (code : Z)
| Rejected (report_sent : bool)
| Failed.

Definition outcome (env : Env) (body : json) (h : list Event) (st : Store)
    : Outcome :=
  match process_message_try env body h st with
  | (Ok _, _, _) => Completed
  | (Raise (TaskclusterRestFailure code), _, _) =>
      if bool_decide (code = 409) then Conflict else RestFailure code
  | (Raise (TaskVerificationError | ValidationError), _, e1) =>
      Rejected (is_ok (tc_reportException env (h ++ e1) (local_task_id body)
                         (local_run_id body) malformed_payload))
  | (Raise _, _, _) => Failed
  end.

(** The outcomes after which [message.ack()] is reached. *)
Definition acknowledged (o : Outcome) : bool :=
  match o with
  | Completed | Conflict | Rejected true | Failed => true
  | RestFailure _ | Rejected false => false
  end.

(** ** Scenarios

    One worker, one message, one task whose manifest lists one file. The
    answers of the outside world that differ between scenarios are the
    arguments of [scenario]. *)
Module Scenario.

Definition obj (l : list (string * json)) : json := JObj (list_to_map l).

Definition manifest_url : string := "https://example.org/build/manifest.json".
Definition file_url : string := "https://example.org/build/firefox.mar".

Definition body : json :=
  obj [("status",
        obj [("taskId", JStr "T1");
             ("runs", JArr [obj [("runId", JInt 0)]; obj [("runId", JInt 1)]])])].

Definition task : json :=
  obj [("taskGroupId", JStr "G1");
       ("scopes", JArr [JStr "signing:cert:dep"]);
       ("payload", obj [("signingManifest", JStr manifest_url)])].

Definition entry : json :=
  obj [("mar", JStr "firefox.mar"); ("hash", JStr "sha:unsigned");
       ("size", JInt 8); ("version", JStr "42.0")].

Definition manifest : json := JArr [entry].

Definition ok_response (data : string) : Res Response :=
  Ok {| status_code := 200; content := data |}.

Definition put_url : Res json :=
  Ok (obj [("putUrl", JStr "https://queue.example.org/put")]).

Definition rest_failure (code : Z) {A} : Res A :=
  Raise (TaskclusterRestFailure code).

Definition scenario (claim : Res json) (valid : Res unit)
    (report_exception report_completed : Res json)
    (artifact : string -> Res json) (download : Res Response)
    (token : string -> Res Response) (tool : Res string) : Env :=
  {| tc_claimTask := fun _ _ _ _ _ => claim;
     tc_task := fun _ _ => Ok task;
     tc_reportCompleted := fun _ _ _ => report_completed;
     tc_reportException := fun _ _ _ _ => report_exception;
     tc_createArtifact := fun _ _ _ dest _ => artifact dest;
     tc_putFile := fun _ _ _ _ => Ok tt;
     requests_get := fun _ u =>
       if bool_decide (u = manifest_url) then ok_response "manifest"
       else download;
     requests_post := fun _ u => token u;
     sh_python := fun _ _ _ _ => tool;
     validate_task := fun _ _ => valid;
     get_hash := fun data => "sha:" +:+ data;
     my_ip := "10.0.0.7";
     urlsplit_path := fun u => u;
     json_loads := fun data =>
       if bool_decide (data = "manifest") then Ok manifest
       else Raise (OtherException "ValueError");
     json_dumps := fun j =>
       match j with
       | JArr l => "manifest of " +:+ pretty (length l)
       | _ => "manifest"
       end;
     format_json := fun j => match j with JStr s => s | _ => "None" end;
     arrow_expires := fun _ => "in two weeks";
     random_draw := fun _ => O |}.

Definition consumer : Self :=
  init "amqp://broker" "exchange/signing" "queue/signing" "signing-worker"
    JNull ["signing1"; "signing2"] ["user"; "secret"] ["signing:cert:dep"]
    "/builds/tools".

Definition start : Store :=
  {| self := consumer; files := ∅; dirs := {["/tmp"]}; tmp_count := 0;
     rng_count := 0 |}.

(** Everything goes well. *)
Definition all_well : Env :=
  scenario (Ok JNull) (Ok tt) (Ok JNull) (Ok JNull) (fun _ => put_url)
    (ok_response "unsigned") (fun _ => ok_response "token") (Ok "signed").

(** Another worker holds the claim. *)
Definition claim_conflict : Env :=
  scenario (rest_failure 409) (Ok tt) (Ok JNull) (Ok JNull) (fun _ => put_url)
    (ok_response "unsigned") (fun _ => ok_response "token") (Ok "signed").

(** The task asks for a scope the worker does not support. *)
Definition bad_scope : Env :=
  scenario (Ok JNull) (Raise TaskVerificationError) (Ok JNull) (Ok JNull)
    (fun _ => put_url) (ok_response "unsigned") (fun _ => ok_response "token")
    (Ok "signed").

(** The claim fails with a server error. *)
Definition claim_failure : Env :=
  scenario (rest_failure 500) (Ok tt) (Ok JNull) (Ok JNull) (fun _ => put_url)
    (ok_response "unsigned") (fun _ => ok_response "token") (Ok "signed").

(** The run is resolved by someone else while the file is being signed:
    creating its artifact fails with a conflict. *)
Definition artifact_conflict : Env :=
  scenario (Ok JNull) (Ok tt) (Ok JNull) (Ok JNull) (fun _ => rest_failure 409)
    (ok_response "unsigned") (fun _ => ok_response "token") (Ok "signed").

(** The same, noticed when the completion is reported. *)
Definition completion_conflict : Env :=
  scenario (Ok JNull) (Ok tt) (Ok JNull) (rest_failure 409) (fun _ => put_url)
    (ok_response "unsigned") (fun _ => ok_response "token") (Ok "signed").

(** The task is rejected and the report of that fails with a conflict. *)
Definition report_conflict : Env :=
  scenario (Ok JNull) (Raise ValidationError) (rest_failure 409) (Ok JNull)
    (fun _ => put_url) (ok_response "unsigned") (fun _ => ok_response "token")
    (Ok "signed").

(** Every signing server answers the token request with a server error. *)
Definition servers_down : Env :=
  scenario (Ok JNull) (Ok tt) (Ok JNull) (Ok JNull) (fun _ => put_url)
    (ok_response "unsigned")
    (fun _ => Ok {| status_code := 500; content := "" |}) (Ok "signed").

(** The signing tool exits with a non-zero status. *)
Definition signing_fails : Env :=
  scenario (Ok JNull) (Ok tt) (Ok JNull) (Ok JNull) (fun _ => put_url)
    (ok_response "unsigned") (fun _ => ok_response "token")
    (Raise (OtherException "ErrorReturnCode_1")).

(** The file served is not the one the manifest describes. *)
Definition tampered : Env :=
  scenario (Ok JNull) (Ok tt) (Ok JNull) (Ok JNull) (fun _ => put_url)
    (ok_response "tampered") (fun _ => ok_response "token") (Ok "signed").

End Scenario.

(** ** Further notions *)

(** At most one call of kind [A] in [evs]. *)
Definition at_most_once (A : Event -> bool) (evs : list Event) : Prop :=
  forall i j a b, evs !! i = Some a -> evs !! j = Some b ->
    A a = true -> A b = true -> i = j.

(** The exceptions of subscripting: a missing key, an index out of range, a
    value that cannot be subscripted. *)
Definition is_lookup_error (x : exn) : bool :=
  match x with KeyError _ | IndexError | TypeError => true | _ => false end.

(** A call made for a task as opposed to the message: anything but the
    claim and the acknowledgement. *)
Definition is_task_work (ev : Event) : bool :=
  negb (is_claim ev) && negb (is_ack ev).

(** The exception a request ends with: the one it raised, or the one
    [raise_for_status] makes of an error status. *)
Definition request_failure (a : Res Response) : option exn :=
  match a with
  | Raise x => Some x
  | Ok r =>
      if is_error_status (status_code r) then Some (HTTPError (status_code r))
      else None
  end.

(** The store once [sign] has written the manifest [data] to the temporary
    file it makes when it starts in [st]. *)
Definition manifest_written (st : Store) (data : string) : Store :=
  {| self := self st;
     files := <[tmp_name (tmp_count st) := data]>
                (<[tmp_name (tmp_count st) := EmptyString]> (files st));
     dirs := dirs st;
     tmp_count := S (tmp_count st);
     rng_count := rng_count st |}.

(** Further cases: the outside world of [Scenario.all_well] with another
    manifest behind the manifest URL. *)
Module Cases.

Definition with_manifest (m : json) : Env :=
  {| tc_claimTask := tc_claimTask Scenario.all_well;
     tc_task := tc_task Scenario.all_well;
     tc_reportCompleted := tc_reportCompleted Scenario.all_well;
     tc_reportException := tc_reportException Scenario.all_well;
     tc_createArtifact := tc_createArtifact Scenario.all_well;
     tc_putFile := tc_putFile Scenario.all_well;
     requests_get := requests_get Scenario.all_well;
     requests_post := requests_post Scenario.all_well;
     sh_python := sh_python Scenario.all_well;
     validate_task := validate_task Scenario.all_well;
     get_hash := get_hash Scenario.all_well;
     my_ip := my_ip Scenario.all_well;
     urlsplit_path := urlsplit_path Scenario.all_well;
     json_loads := fun _ => Ok m;
     json_dumps := json_dumps Scenario.all_well;
     format_json := format_json Scenario.all_well;
     arrow_expires := arrow_expires Scenario.all_well;
     random_draw := random_draw Scenario.all_well |}.

End Cases.

(** * Reasoning about runs *)

Lemma prepend_nil {A} (x : Res A * Store * list Event) : prepend [] x = x.
Proof. by destruct x as [[r st] e]. Qed.

Lemma prepend_prepend {A} e1 e2 (x : Res A * Store * list Event) :
  prepend e1 (prepend e2 x) = prepend (e1 ++ e2) x.
Proof. destruct x as [[r st] e]. unfold prepend. simpl. by rewrite app_assoc. Qed.

Lemma result_prepend {A} e1 (x : Res A * Store * list Event) :
  result (prepend e1 x) = result x.
Proof. done. Qed.

Lemma store_prepend {A} e1 (x : Res A * Store * list Event) :
  store_of (prepend e1 x) = store_of x.
Proof. done. Qed.

Lemma events_prepend {A} e1 (x : Res A * Store * list Event) :
  events (prepend e1 x) = e1 ++ events x.
Proof. done. Qed.

Lemma run_eta {A} (x : Res A * Store * list Event) :
  x = (result x, store_of x, events x).
Proof. by destruct x as [[r st] e]. Qed.

Lemma bind_Ok {A B} (m : M A) (f : A -> M B) h st a st1 e1 :
  m h st = (Ok a, st1, e1) ->
  bind m f h st = prepend e1 (f a (h ++ e1) st1).
Proof.
  intros Hm. unfold bind. rewrite Hm.
  by destruct (f a (h ++ e1) st1) as [[r st2] e2].
Qed.

Lemma bind_Raise {A B} (m : M A) (f : A -> M B) h st x st1 e1 :
  m h st = (Raise x, st1, e1) ->
  bind m f h st = (Raise x, st1, e1).
Proof. intros Hm. unfold bind. by rewrite Hm. Qed.

Lemma bind_pure {A B} (m : M A) (f : A -> M B) h st a :
  m h st = (Ok a, st, []) ->
  bind m f h st = f a h st.
Proof.
  intros Hm. rewrite (bind_Ok _ _ _ _ _ _ _ Hm), app_nil_r. apply prepend_nil.
Qed.

Lemma catch_Ok {A} (m : M A) k h st a st1 e1 :
  m h st = (Ok a, st1, e1) ->
  catch m k h st = (Ok a, st1, e1).
Proof. intros Hm. unfold catch. by rewrite Hm. Qed.

Lemma catch_Raise {A} (m : M A) k h st x st1 e1 :
  m h st = (Raise x, st1, e1) ->
  catch m k h st = prepend e1 (k x (h ++ e1) st1).
Proof.
  intros Hm. unfold catch. rewrite Hm.
  by destruct (k x (h ++ e1) st1) as [[r st2] e2].
Qed.

Lemma bind_lift_Ok {A B} (a : A) (f : A -> M B) h st :
  bind (lift (Ok a)) f h st = f a h st.
Proof. by apply bind_pure. Qed.

Lemma bind_lift_Raise {A B} x (f : A -> M B) h st :
  bind (lift (Raise x)) f h st = (Raise x, st, []).
Proof. by apply bind_Raise. Qed.

Lemma bind_ret {A B} (a : A) (f : A -> M B) h st :
  bind (ret a) f h st = f a h st.
Proof. by apply bind_pure. Qed.

Lemma bind_raise {A B} x (f : A -> M B) h st :
  bind (raise x) f h st = (Raise x, st, []).
Proof. by apply bind_Raise. Qed.

Lemma bind_gets {A B} (g : Store -> A) (f : A -> M B) h st :
  bind (gets g) f h st = f (g st) h st.
Proof. by apply bind_pure. Qed.

Lemma bind_modify {B} g (f : unit -> M B) h st :
  bind (modify g) f h st = f tt h (g st).
Proof.
  rewrite (bind_Ok _ _ _ _ tt (g st) []); [|done].
  rewrite app_nil_r. apply prepend_nil.
Qed.

Lemma bind_call_Ok {A B} ev (answer : list Event -> Res A) (f : A -> M B)
    h st a :
  answer h = Ok a ->
  bind (call ev answer) f h st = prepend [ev] (f a (h ++ [ev]) st).
Proof. intros Ha. apply bind_Ok. unfold call. by rewrite Ha. Qed.

Lemma bind_call_Raise {A B} ev (answer : list Event -> Res A) (f : A -> M B)
    h st x :
  answer h = Raise x ->
  bind (call ev answer) f h st = (Raise x, st, [ev]).
Proof. intros Ha. apply bind_Raise. unfold call. by rewrite Ha. Qed.

Lemma bind_call {A B} ev (answer : list Event -> Res A) (f : A -> M B) h st :
  bind (call ev answer) f h st =
    match answer h with
    | Ok a => prepend [ev] (f a (h ++ [ev]) st)
    | Raise x => (Raise x, st, [ev])
    end.
Proof.
  destruct (answer h) as [a|x] eqn:Ha.
  - by apply bind_call_Ok.
  - by apply bind_call_Raise.
Qed.

(** The shape of a run of [bind]. *)
Lemma bind_inv {A B} (m : M A) (f : A -> M B) h st :
  (exists a st1 e1, m h st = (Ok a, st1, e1) /\
     bind m f h st = prepend e1 (f a (h ++ e1) st1)) \/
  (exists x st1 e1, m h st = (Raise x, st1, e1) /\
     bind m f h st = (Raise x, st1, e1)).
Proof.
  destruct (m h st) as [[[a|x] st1] e1] eqn:Hm.
  - left. exists a, st1, e1. split; [done|]. by apply bind_Ok.
  - right. exists x, st1, e1. split; [done|]. by apply bind_Raise.
Qed.

(** ** Runs of the phase automaton *)

Lemma run_app p e1 e2 :
  run p (e1 ++ e2) = match run p e1 with Some p' => run p' e2 | None => None end.
Proof.
  revert p. induction e1 as [|ev e1 IH]; intros p; simpl; [done|].
  destruct (step p ev); [apply IH|done].
Qed.

Lemma run_app_Some p e1 e2 p1 p2 :
  run p e1 = Some p1 -> run p1 e2 = Some p2 -> run p (e1 ++ e2) = Some p2.
Proof. intros H1 H2. by rewrite run_app, H1. Qed.

Lemma traces_conseq {A} (m : M A) p (Q Q' : Res A -> Phase -> Prop) :
  traces m p Q -> (forall r p', Q r p' -> Q' r p') -> traces m p Q'.
Proof.
  intros Hm HQ h st. destruct (Hm h st) as (p' & Hr & Hq). eauto.
Qed.

Lemma traces_silent {A} (m : M A) p (Q : Res A -> Phase -> Prop) :
  silent m ->
  (forall r, Q r p) ->
  traces m p Q.
Proof. intros He HQ h st. exists p. rewrite He. eauto. Qed.

Lemma traces_ret {A} (a : A) p (Q : Res A -> Phase -> Prop) :
  Q (Ok a) p -> traces (ret a) p Q.
Proof. intros HQ h st. exists p. eauto. Qed.

Lemma traces_raise {A} x p (Q : Res A -> Phase -> Prop) :
  Q (Raise x) p -> traces (raise x) p Q.
Proof. intros HQ h st. exists p. eauto. Qed.

Lemma traces_lift {A} (r : Res A) p (Q : Res A -> Phase -> Prop) :
  Q r p -> traces (lift r) p Q.
Proof. intros HQ h st. exists p. eauto. Qed.

Lemma traces_call {A} ev (answer : list Event -> Res A) p p'
    (Q : Res A -> Phase -> Prop) :
  step p ev = Some p' ->
  (forall r, Q r p') ->
  traces (call ev answer) p Q.
Proof.
  intros Hs HQ h st. exists p'. unfold call, events, result. simpl.
  rewrite Hs. eauto.
Qed.

Lemma traces_bind {A B} (m : M A) (f : A -> M B) p
    (Q1 : Res A -> Phase -> Prop) (Q : Res B -> Phase -> Prop) :
  traces m p Q1 ->
  (forall a p1, Q1 (Ok a) p1 -> traces (f a) p1 Q) ->
  (forall x p1, Q1 (Raise x) p1 -> Q (Raise x) p1) ->
  traces (bind m f) p Q.
Proof.
  intros Hm Hf Hx h st. destruct (Hm h st) as (p1 & Hr1 & Hq1).
  destruct (bind_inv m f h st) as [(a & st1 & e1 & Hrun & ->)
                                  |(x & st1 & e1 & Hrun & ->)];
    rewrite Hrun in Hr1, Hq1; unfold events, result in Hr1, Hq1;
    simpl in Hr1, Hq1.
  - destruct (Hf a p1 Hq1 (h ++ e1) st1) as (p2 & Hr2 & Hq2).
    exists p2. rewrite events_prepend, result_prepend.
    split; [by eapply run_app_Some|done].
  - exists p1. split; [done|]. by apply Hx.
Qed.

Lemma traces_catch {A} (m : M A) (k : exn -> M A) p
    (Q1 : Res A -> Phase -> Prop) (Q : Res A -> Phase -> Prop) :
  traces m p Q1 ->
  (forall a p1, Q1 (Ok a) p1 -> Q (Ok a) p1) ->
  (forall x p1, Q1 (Raise x) p1 -> traces (k x) p1 Q) ->
  traces (catch m k) p Q.
Proof.
  intros Hm Ha Hk h st. destruct (Hm h st) as (p1 & Hr1 & Hq1).
  destruct (m h st) as [[[a|x] st1] e1] eqn:Hrun;
    unfold events, result in Hr1, Hq1; simpl in Hr1, Hq1.
  - exists p1. rewrite (catch_Ok _ _ _ _ _ _ _ Hrun). split; [done|].
    by apply Ha.
  - destruct (Hk x p1 Hq1 (h ++ e1) st1) as (p2 & Hr2 & Hq2).
    exists p2. rewrite (catch_Raise _ _ _ _ _ _ _ Hrun).
    rewrite events_prepend, result_prepend.
    split; [by eapply run_app_Some|done].
Qed.

Lemma traces_bind_silent {A B} (m : M A) (f : A -> M B) p
    (Q : Res B -> Phase -> Prop) :
  silent m ->
  (forall a, traces (f a) p Q) ->
  (forall x, Q (Raise x) p) ->
  traces (bind m f) p Q.
Proof.
  intros Hs Hf Hx.
  apply (traces_bind m f p (fun _ p1 => p1 = p)).
  - intros h st. exists p. by rewrite Hs.
  - by intros a p1 ->.
  - by intros x p1 ->.
Qed.

Lemma traces_bind_gets {A B} (g : Store -> A) (f : A -> M B) p
    (Q : Res B -> Phase -> Prop) :
  (forall a, traces (f a) p Q) ->
  traces (bind (gets g) f) p Q.
Proof. intros Hf h st. rewrite bind_gets. apply Hf. Qed.

Lemma traces_retry_more {A} (action : M A) (I : Phase -> Prop)
    (Q : Res A -> Phase -> Prop) k :
  (forall p, I p -> traces action p (fun r p' => I p' /\ Q r p')) ->
  forall p, I p -> traces (retry_more k action) p (fun r p' => I p' /\ Q r p').
Proof.
  intros Ha. induction k as [|k IH]; intros p Hp; simpl; [by apply Ha|].
  eapply traces_catch; [by apply Ha| |]; simpl.
  - by intros a p1 H.
  - intros x p1 [H1 _]. by apply IH.
Qed.

(** ** The primitives that make no call *)

Lemma silent_ret {A} (a : A) : silent (ret a).
Proof. done. Qed.
Lemma silent_raise {A} x : silent (@raise A x).
Proof. done. Qed.
Lemma silent_lift {A} (r : Res A) : silent (lift r).
Proof. done. Qed.
Lemma silent_gets {A} (g : Store -> A) : silent (gets g).
Proof. done. Qed.
Lemma silent_modify g : silent (modify g).
Proof. done. Qed.
Lemma silent_mkdtemp : silent mkdtemp.
Proof. done. Qed.
Lemma silent_mkstemp : silent mkstemp.
Proof. done. Qed.
Lemma silent_rmtree d : silent (rmtree d).
Proof. done. Qed.
Lemma silent_write_file path data : silent (write_file path data).
Proof. intros h st. unfold write_file. by case_match. Qed.
Lemma silent_read_file path : silent (read_file path).
Proof. intros h st. unfold read_file. by case_match. Qed.
Lemma silent_raise_for_status r : silent (raise_for_status r).
Proof. intros h st. unfold raise_for_status. by case_match. Qed.
Lemma silent_shuffle env : silent (shuffle_signing_servers env).
Proof. done. Qed.

Create HintDb runs.

#[local] Hint Resolve silent_ret silent_raise silent_lift silent_gets
  silent_modify silent_mkdtemp silent_mkstemp silent_rmtree silent_write_file
  silent_read_file silent_raise_for_status silent_shuffle : runs.

(** ** The phases each method goes through *)

Ltac step_silent :=
  apply traces_bind_silent;
  [solve [auto with runs] | | try solve [done | intros; split; auto; done]].

Section Phases.

Variable env : Env.

Lemma get_manifest_once_traces url p :
  fetching p = true ->
  traces (get_manifest_once env url) p
    (fun r p' => fetching p' = true /\
                 (is_ok r = true -> p' = ManifestRequested)).
Proof.
  intros Hp. unfold get_manifest_once.
  destruct url; try (apply traces_raise; by split).
  eapply traces_bind.
  - apply (traces_call _ _ p ManifestRequested
             (fun _ p' => p' = ManifestRequested)); [|done].
    by destruct p.
  - intros r p1 ->. step_silent.
    intros _. by apply traces_lift.
  - by intros x p1 ->.
Qed.

Lemma get_manifest_traces url p :
  fetching p = true ->
  traces (get_manifest env url) p
    (fun r p' => fetching p' = true /\
                 (is_ok r = true -> p' = ManifestRequested)).
Proof.
  intros Hp. unfold get_manifest, retriable.
  apply (traces_retry_more _ (fun p => fetching p = true)); [|done].
  intros p0. apply get_manifest_once_traces.
Qed.

Lemma token_loop_traces auth servers p :
  asking_token p = true ->
  traces (token_loop env auth servers) p
    (fun r p' => asking_token p' = true /\
                 (forall t, r = Ok (Some t) -> p' = TokenRequested)).
Proof.
  revert p. induction servers as [|server rest IH]; intros p Hp; simpl.
  - by apply traces_ret.
  - eapply traces_bind.
    + apply (traces_call _ _ p TokenRequested
               (fun _ p' => p' = TokenRequested)); [|done].
      by destruct p.
    + intros r p1 ->. step_silent.
      intros _. case_bool_decide.
      * by apply IH.
      * by apply traces_ret.
    + by intros x p1 ->.
Qed.

Lemma get_token_once_traces output_file p :
  asking_token p = true ->
  traces (get_token_once env output_file) p
    (fun r p' => asking_token p' = true /\
                 (is_ok r = true -> p' = TokenRequested)).
Proof.
  intros Hp. unfold get_token_once.
  step_silent. intros _.
  step_silent. intros servers.
  step_silent. intros auth.
  eapply traces_bind; [by apply token_loop_traces| |]; simpl.
  - intros [t|] p1 [H1 H2].
    + apply traces_silent; auto with runs. intros r. split; [done|].
      intros _. by eapply H2.
    + by apply traces_raise.
  - by intros x p1 [H1 H2].
Qed.

Lemma get_token_traces output_file p :
  asking_token p = true ->
  traces (get_token env output_file) p
    (fun r p' => asking_token p' = true /\
                 (is_ok r = true -> p' = TokenRequested)).
Proof.
  intros Hp. unfold get_token, retriable.
  apply (traces_retry_more _ (fun p => asking_token p = true)); [|done].
  intros p0. apply get_token_once_traces.
Qed.

Lemma sign_file_traces work_dir from_ to :
  traces (sign_file env work_dir from_ to) Downloaded
    (fun r p' => in_files p' = true /\ (is_ok r = true -> p' = Signed)).
Proof.
  unfold sign_file.
  eapply traces_bind; [by apply get_token_traces| |]; simpl.
  - intros _ p1 [_ H]. rewrite (H eq_refl).
    step_silent. intros s.
    step_silent. intros fs.
    eapply traces_bind.
    + by apply (traces_call _ _ TokenRequested Signed
                  (fun _ p' => p' = Signed)).
    + intros out p2 ->. by apply traces_silent; auto with runs.
    + by intros x p2 ->.
  - intros x p1 [H _]. split; [by destruct p1|done].
Qed.

Lemma create_artifact_file_traces task_id run_id dest abs_filename :
  traces (create_artifact env task_id run_id dest abs_filename octet_stream)
    Signed
    (fun r p' => in_files p' = true /\ (is_ok r = true -> p' = Uploaded)).
Proof.
  unfold create_artifact.
  eapply (traces_bind _ _ _ (fun _ p' => p' = ArtifactCreated)).
  - intros h st. by exists ArtifactCreated.
  - intros res p1 ->. step_silent.
    intros put_url. step_silent.
    intros data.
    by apply (traces_call _ _ ArtifactCreated Uploaded).
  - by intros x p1 ->.
Qed.

Lemma create_artifact_manifest_traces task_id run_id abs_filename p :
  between_files p = true ->
  traces (create_artifact env task_id run_id manifest_json abs_filename
            "application/json") p
    (fun r p' => (p' = p \/ p' = ManifestCreated \/ p' = ManifestUploaded) /\
                 (is_ok r = true -> p' = ManifestUploaded)).
Proof.
  intros Hp. unfold create_artifact.
  eapply (traces_bind _ _ _ (fun _ p' => p' = ManifestCreated)).
  - intros h st. exists ManifestCreated. split; [|done]. by destruct p.
  - intros res p1 ->. step_silent.
    intros put_url. step_silent.
    intros data.
    apply (traces_call _ _ ManifestCreated ManifestUploaded); [done|].
    auto.
  - intros x p1 ->. split; [auto|done].
Qed.

Lemma download_and_sign_file_traces task_id run_id url checksum p :
  between_files p = true ->
  traces (download_and_sign_file env task_id run_id url checksum) p
    (fun r p' => in_files p' = true /\ (is_ok r = true -> p' = Uploaded)).
Proof.
  intros Hp. assert (Hin : in_files p = true) by by destruct p.
  unfold download_and_sign_file.
  step_silent. intros work_dir.
  eapply traces_bind.
  - apply (traces_call _ _ p Downloaded (fun _ p' => p' = Downloaded));
      [by destruct p|done].
  - intros r p1 ->.
    step_silent. intros _.
    step_silent. intros _.
    step_silent. intros data.
    case_match.
    + step_silent. intros _.
      by apply traces_raise.
    + eapply traces_bind; [apply sign_file_traces| |]; simpl.
      * intros _ p2 [_ Hs]. rewrite (Hs eq_refl).
        eapply traces_bind; [apply create_artifact_file_traces| |]; simpl.
        -- intros _ p3 [_ H3]. rewrite (H3 eq_refl). by apply traces_ret.
        -- by intros x p3 [H3 _].
      * by intros x p2 [H2 _].
  - by intros x p1 ->.
Qed.

Lemma sign_entry_traces task_id run_id url_prefix e p :
  between_files p = true ->
  traces (sign_entry env task_id run_id url_prefix e) p
    (fun r p' => in_files p' = true /\ (is_ok r = true -> p' = Uploaded)).
Proof.
  intros Hp. assert (Hin : in_files p = true) by by destruct p.
  unfold sign_entry.
  step_silent. intros mar. step_silent. intros checksum.
  eapply traces_bind; [by apply download_and_sign_file_traces| |]; simpl.
  - intros abs_filename p1 [_ Hp1]. rewrite (Hp1 eq_refl).
    step_silent. intros data. step_silent. intros e1.
    by apply traces_lift.
  - by intros x p1 [H1 _].
Qed.

Lemma sign_entries_traces task_id run_id url_prefix entries p :
  between_files p = true ->
  traces (sign_entries env task_id run_id url_prefix entries) p
    (fun r p' => in_files p' = true /\
                 (is_ok r = true -> between_files p' = true)).
Proof.
  revert p. induction entries as [|e rest IH]; intros p Hp; simpl.
  - apply traces_ret. split; [by destruct p|done].
  - eapply traces_bind; [by apply sign_entry_traces| |]; simpl.
    + intros e' p1 [_ Hp1]. rewrite (Hp1 eq_refl).
      eapply traces_bind; [by apply IH| |]; simpl.
      * intros rest' p2 [H1 H2]. apply traces_ret. auto.
      * by intros x p2 [H1 _].
    + by intros x p1 [H1 _].
Qed.

End Phases.

(** ** What the automaton says about order *)

Lemma run_precedes (A B : Event -> bool) (after : Phase -> bool) :
  (forall p e p', step p e = Some p' ->
     after p = false -> after p' = true -> A e = true) ->
  (forall p e p', step p e = Some p' -> B e = true -> after p = true) ->
  forall evs p p', after p = false -> run p evs = Some p' ->
    precedes A B evs.
Proof.
  intros Henter Hfrom evs.
  induction evs as [|e evs IH]; intros p p' Hp Hrun j b Hj Hb; [done|].
  simpl in Hrun. destruct (step p e) as [p1|] eqn:Hstep; [|done].
  destruct j as [|j]; simpl in Hj.
  - injection Hj as ->. rewrite (Hfrom _ _ _ Hstep Hb) in Hp. done.
  - destruct (after p1) eqn:Hp1.
    + exists 0%nat, e. split; [lia|]. split; [done|]. by eapply Henter.
    + destruct (IH p1 p' Hp1 Hrun j b Hj Hb) as (i & a & Hi & Ha & HA).
      exists (S i), a. split; [lia|done].
Qed.

Lemma run_precedes_since (A B C : Event -> bool) (after : Phase -> bool) :
  (forall p e p', step p e = Some p' ->
     after p = false -> after p' = true -> A e = true) ->
  (forall p e p', step p e = Some p' -> B e = true -> after p = true) ->
  (forall p e p', step p e = Some p' ->
     after p = true -> after p' = true -> C e = false) ->
  forall evs p p', after p = false -> run p evs = Some p' ->
    precedes_since A B C evs.
Proof.
  intros Henter Hfrom Hin.
  assert (Hgen : forall evs p p', run p evs = Some p' ->
    forall j b, evs !! j = Some b -> B b = true ->
      (after p = true /\
       forall k c, (k < j)%nat -> evs !! k = Some c -> C c = false) \/
      (exists i a, (i < j)%nat /\ evs !! i = Some a /\ A a = true /\
         forall k c, (i < k < j)%nat -> evs !! k = Some c -> C c = false)).
  { induction evs as [|e evs IH]; intros p p' Hrun j b Hj Hb; [done|].
    simpl in Hrun. destruct (step p e) as [p1|] eqn:Hstep; [|done].
    destruct j as [|j]; simpl in Hj.
    - injection Hj as ->. left. split; [by eapply Hfrom|]. intros; lia.
    - destruct (IH p1 p' Hrun j b Hj Hb)
        as [[Hp1 Hno]|(i & a & Hi & Ha & HA & Hno)].
      + destruct (after p) eqn:Hp.
        * left. split; [done|]. intros [|k] c Hk Hc; simpl in Hc.
          -- injection Hc as <-. by eapply Hin.
          -- eapply Hno; [|done]. lia.
        * right. exists 0%nat, e. split; [lia|]. split; [done|].
          split; [by eapply Henter|].
          intros [|k] c Hk Hc; [lia|]. simpl in Hc.
          eapply Hno; [|done]. lia.
      + right. exists (S i), a. split; [lia|]. split; [done|].
        split; [done|].
        intros [|k] c Hk Hc; [lia|]. simpl in Hc.
        eapply Hno; [|done]. lia. }
  intros evs p p' Hp Hrun j b Hj Hb.
  destruct (Hgen evs p p' Hrun j b Hj Hb) as [[Hp' _]|H]; [|done].
  by rewrite Hp in Hp'.
Qed.

Lemma run_never (B : Event -> bool) (after : Phase -> bool) :
  (forall p e p', step p e = Some p' -> after p = true -> after p' = true) ->
  (forall p e p', step p e = Some p' -> after p = true -> B e = false) ->
  forall evs p p', after p = true -> run p evs = Some p' ->
    forall j b, evs !! j = Some b -> B b = false.
Proof.
  intros Hstay Hno evs.
  induction evs as [|e evs IH]; intros p p' Hp Hrun j b Hj; [done|].
  simpl in Hrun. destruct (step p e) as [p1|] eqn:Hstep; [|done].
  destruct j as [|j]; simpl in Hj.
  - injection Hj as ->. by eapply Hno.
  - eapply (IH p1); [by eapply Hstay|done|done].
Qed.

Lemma run_nothing_after (A B : Event -> bool) (after : Phase -> bool) :
  (forall p e p', step p e = Some p' -> A e = true -> after p' = true) ->
  (forall p e p', step p e = Some p' -> after p = true -> after p' = true) ->
  (forall p e p', step p e = Some p' -> after p = true -> B e = false) ->
  (forall e, A e = true -> B e = false) ->
  forall evs p p', run p evs = Some p' -> nothing_after A B evs.
Proof.
  intros Hinto Hstay Hno Hdisj evs.
  induction evs as [|e evs IH]; intros p p' Hrun i j a b Hi Ha Hj Hb; [done|].
  simpl in Hrun. destruct (step p e) as [p1|] eqn:Hstep; [|done].
  destruct i as [|i]; simpl in Hi.
  - injection Hi as ->. destruct j as [|j]; simpl in Hj.
    + injection Hj as ->. rewrite (Hdisj _ Ha) in Hb. done.
    + assert (B b = false) as Hb'; [|by rewrite Hb' in Hb].
      eapply (run_never B after Hstay Hno evs p1 p'); [|done|done].
      by eapply Hinto.
  - destruct j as [|j]; [lia|]. simpl in Hj.
    specialize (IH p1 p' Hrun i j a b Hi Ha Hj Hb). lia.
Qed.

(** ** The phases of a whole message *)

Section MessagePhases.

Variable env : Env.

Lemma sign_traces task_id run_id task :
  traces (sign env task_id run_id task) Validated
    (fun r p' => after_validate p' = true /\ reported p' = false /\
                 (is_ok r = true -> p' = ManifestUploaded)).
Proof.
  unfold sign.
  step_silent. intros payload. step_silent. intros manifest_url.
  eapply traces_bind; [by apply get_manifest_traces| |]; simpl.
  - intros signing_manifest p1 [_ Hp1]. rewrite (Hp1 eq_refl).
    step_silent. intros u. step_silent. intros entries.
    eapply traces_bind; [by apply sign_entries_traces| |]; simpl.
    + intros entries' p2 [_ Hp2]. specialize (Hp2 eq_refl).
      step_silent; try (by destruct p2). intros manifest_file.
      step_silent; try (by destruct p2). intros _.
      eapply traces_conseq;
        [by apply create_artifact_manifest_traces|]; simpl.
      intros r p3 [[->|[->| ->]] Hok]; by destruct p2.
    + intros x p2 [Hp2 _]. by destruct p2.
  - intros x p1 [Hp1 _]. by destruct p1.
Qed.

Lemma getitem_raises j k x :
  getitem j k = Raise x -> is_verification_error x = false.
Proof.
  unfold getitem. repeat case_match; try done; by intros [= <-].
Qed.

Lemma getitem_last_raises j x :
  getitem_last j = Raise x -> is_verification_error x = false.
Proof.
  unfold getitem_last. repeat case_match; try done; by intros [= <-].
Qed.

Lemma body_task_id_raises body x :
  body_task_id body = Raise x -> is_verification_error x = false.
Proof.
  unfold body_task_id. destruct (getitem body "status") eqn:H1.
  - apply getitem_raises.
  - intros [= <-]. by eapply getitem_raises.
Qed.

Lemma body_run_id_raises body x :
  body_run_id body = Raise x -> is_verification_error x = false.
Proof.
  unfold body_run_id.
  destruct (getitem body "status") as [status|] eqn:H1;
    [|intros [= <-]; by eapply getitem_raises].
  destruct (getitem status "runs") as [runs|] eqn:H2;
    [|intros [= <-]; by eapply getitem_raises].
  destruct (getitem_last runs) as [r|] eqn:H3;
    [|intros [= <-]; by eapply getitem_last_raises].
  apply getitem_raises.
Qed.

(** Where the [try] block stops: with the completion reported when it
    returns; otherwise no later than that, and on an exception other than a
    verification error when the claim has not been made. *)
Lemma process_message_try_traces body :
  traces (process_message_try env body) Received
    (fun r p' =>
       match r with
       | Ok _ => p' = CompletionReported
       | Raise x =>
           reportable p' = true \/
           (p' = Received /\ is_verification_error x = false)
       end).
Proof.
  unfold process_message_try.
  eapply (traces_bind _ _ _ (fun r p1 => p1 = Received /\
            forall x, r = Raise x -> is_verification_error x = false)).
  { apply traces_lift. split; [done|]. apply body_task_id_raises. }
  2:{ intros x p1 [-> Hx]. right. eauto. }
  intros task_id p1 [-> _].
  eapply (traces_bind _ _ _ (fun r p1 => p1 = Received /\
            forall x, r = Raise x -> is_verification_error x = false)).
  { apply traces_lift. split; [done|]. apply body_run_id_raises. }
  2:{ intros x p1 [-> Hx]. right. eauto. }
  intros run_id p1 [-> _].
  apply traces_bind_gets. intros wt.
  eapply traces_bind.
  { by apply (traces_call _ _ Received Claimed (fun _ p' => p' = Claimed)). }
  2:{ intros x p1 ->. by left. }
  intros _ p1 ->.
  eapply traces_bind.
  { by apply (traces_call _ _ Claimed Fetched (fun _ p' => p' = Fetched)). }
  2:{ intros x p1 ->. by left. }
  intros task p1 ->.
  apply traces_bind_silent; [auto with runs| |by left]. intros task_graph_id.
  apply traces_bind_gets. intros scopes.
  eapply traces_bind.
  { by apply (traces_call _ _ Fetched Validated
                (fun _ p' => p' = Validated)). }
  2:{ intros x p1 ->. by left. }
  intros _ p1 ->.
  eapply traces_bind; [apply sign_traces| |]; simpl.
  2:{ intros x p1 (H1 & H2 & _). left. by destruct p1. }
  intros _ p1 (_ & _ & Hp1). rewrite (Hp1 eq_refl).
  eapply traces_bind.
  { by apply (traces_call _ _ ManifestUploaded CompletionReported
                (fun _ p' => p' = CompletionReported)). }
  2:{ intros x p2 ->. by left. }
  intros _ p2 ->. by apply traces_ret.
Qed.

Lemma process_message_except_traces body x p :
  reportable p = true \/ (p = Received /\ is_verification_error x = false) ->
  traces (process_message_except env body x) p (fun _ p' => p' <> Acked).
Proof.
  intros Hp. unfold process_message_except.
  assert (Hne : p <> Acked) by (intros ->; by destruct Hp as [Hp|[Hp _]]).
  destruct x; try (by apply traces_ret);
    try (case_bool_decide; [by apply traces_ret|by apply traces_raise]).
  all: destruct Hp as [Hp|[_ Hp]]; [|done].
  all: eapply traces_bind;
    [ apply (traces_call _ _ p ExceptionReported
               (fun _ p' => p' = ExceptionReported)); [by destruct p|done]
    | intros _ p1 ->; by apply traces_ret
    | by intros x p1 -> ].
Qed.

(** The calls of [process_message] come in turn, whatever the answers. *)
Lemma process_message_traces body :
  traces (process_message env body) Received
    (fun r p' => is_ok r = true -> p' = Acked).
Proof.
  unfold process_message.
  eapply (traces_bind _ _ _ (fun _ p' => p' <> Acked)).
  - eapply traces_catch; [apply process_message_try_traces| |]; simpl.
    + by intros a p1 ->.
    + intros x p1 Hp1. by apply process_message_except_traces.
  - intros _ p1 Hp1. simpl in Hp1.
    apply (traces_call _ _ p1 Acked); [by destruct p1|done].
  - done.
Qed.

Lemma process_message_run body h st :
  exists p', run Received (events (process_message env body h st)) = Some p'.
Proof.
  destruct (process_message_traces body h st) as (p' & Hrun & _). eauto.
Qed.

End MessagePhases.

(** * The order of side effects *)

Ltac by_cases_on_step :=
  let p := fresh "p" in
  let e := fresh "e" in
  let p' := fresh "p'" in
  let Hs := fresh "Hs" in
  intros p e p'; destruct p, e; simpl; intros Hs;
  repeat (case_bool_decide; simpl in Hs); simplify_eq; simpl;
  repeat (case_bool_decide; simpl); try done; congruence.

(** C8. Within one message the calls come in a fixed order, whatever the
    outside world answers: the task is fetched only after the claim,
    validated only after it has been fetched, nothing is fetched for signing
    (manifest or file) before the validation; each run of the signing tool
    follows a download with only token requests in between, each upload of a
    file follows a run of the signing tool with only upload calls in
    between; the completion report follows the sending of the manifest and
    no upload call comes after it. *)
Theorem side_effects_in_order env body h st :
  let evs := events (process_message env body h st) in
  precedes is_claim is_get_task evs /\
  precedes is_get_task is_validate evs /\
  precedes is_validate is_fetch evs /\
  precedes_since is_download is_sign_tool not_post_token evs /\
  precedes_since is_sign_tool is_file_upload not_upload evs /\
  precedes is_manifest_sent is_report_completed evs /\
  nothing_after is_report_completed is_upload evs.
Proof.
  intros evs.
  destruct (process_message_run env body h st) as [p' Hrun].
  fold evs in Hrun.
  repeat split.
  - apply (run_precedes _ _ after_claim) with (p := Received) (p' := p');
      [by_cases_on_step|by_cases_on_step|done|exact Hrun].
  - apply (run_precedes _ _ after_fetch) with (p := Received) (p' := p');
      [by_cases_on_step|by_cases_on_step|done|exact Hrun].
  - apply (run_precedes _ _ after_validate) with (p := Received) (p' := p');
      [by_cases_on_step|by_cases_on_step|done|exact Hrun].
  - apply (run_precedes_since _ _ _ asking_token) with (p := Received) (p' := p');
      [by_cases_on_step|by_cases_on_step|by_cases_on_step|done|exact Hrun].
  - apply (run_precedes_since _ _ _ uploading_file) with (p := Received) (p' := p');
      [by_cases_on_step|by_cases_on_step|by_cases_on_step|done|exact Hrun].
  - apply (run_precedes _ _ manifest_sent) with (p := Received) (p' := p');
      [by_cases_on_step|by_cases_on_step|done|exact Hrun].
  - apply (run_nothing_after _ _ reported) with (p := Received) (p' := p');
      [by_cases_on_step|by_cases_on_step|by_cases_on_step|by intros []
      |exact Hrun].
Qed.

(** * The handlers of [process_message] *)

(** [process_message] by the outcome of its [try] block: which [except]
    clause runs, what it calls, and whether [message.ack()] is reached. *)
Lemma process_message_outcomes env body h st :
  process_message env body h st =
    match process_message_try env body h st with
    | (Ok _, st1, e1) => (Ok tt, st1, e1 ++ [Ack])
    | (Raise x, st1, e1) =>
        match x with
        | TaskclusterRestFailure code =>
            if bool_decide (code = 409)
            then (Ok tt, st1, e1 ++ [Ack])
            else (Raise x, st1, e1)
        | TaskVerificationError | ValidationError =>
            let report :=
              ReportException (local_task_id body) (local_run_id body)
                malformed_payload in
            match tc_reportException env (h ++ e1) (local_task_id body)
                    (local_run_id body) malformed_payload with
            | Ok _ => (Ok tt, st1, e1 ++ [report; Ack])
            | Raise y => (Raise y, st1, e1 ++ [report])
            end
        | _ => (Ok tt, st1, e1 ++ [Ack])
        end
    end.
Proof.
  unfold process_message, catch, bind at 1.
  destruct (process_message_try env body h st) as [[[[]|x] st1] e1].
  { unfold message_ack, call. simpl. done. }
  unfold process_message_except, message_ack.
  destruct x; simpl; rewrite ?app_nil_r; try done.
  - case_bool_decide; simpl; by rewrite ?app_nil_r.
  - unfold bind, call.
    destruct (tc_reportException _ _ _ _ _); simpl;
      by rewrite <- ?app_assoc, ?app_nil_r.
  - unfold bind, call.
    destruct (tc_reportException _ _ _ _ _); simpl;
      by rewrite <- ?app_assoc, ?app_nil_r.
Qed.

(** * Claim conflicts and validation failures *)

(** C2. When the claim call fails with HTTP 409, the message is
    acknowledged, the claim is the only call made on the task-tracking
    service, and the handler returns normally. *)
Theorem claim_conflict_acked env body h st task_id run_id :
  body_task_id body = Ok task_id ->
  body_run_id body = Ok run_id ->
  tc_claimTask env h task_id run_id (worker_type (self st))
    (worker_type (self st)) = Raise (TaskclusterRestFailure 409) ->
  process_message env body h st =
    (Ok tt, st,
     [ClaimTask task_id run_id (worker_type (self st)) (worker_type (self st));
      Ack]).
Proof.
  intros Ht Hr Hc. rewrite process_message_outcomes.
  unfold process_message_try.
  rewrite Ht, bind_lift_Ok, Hr, bind_lift_Ok, bind_gets.
  rewrite bind_call, Hc. done.
Qed.

Lemma local_ids body task_id run_id :
  body_task_id body = Ok task_id ->
  body_run_id body = Ok run_id ->
  local_task_id body = Some task_id /\ local_run_id body = Some run_id.
Proof. intros Ht Hr. unfold local_task_id, local_run_id. by rewrite Ht, Hr. Qed.

(** C6. When [validate_task] rejects a claimed task (scopes or payload
    schema), [reportException] is called for the task and run with reason
    ["malformed-payload"], and nothing is fetched, signed or uploaded: the
    calls of the whole message are the claim, the task fetch, the
    validation, the report and, when the report went through, the
    acknowledgement. *)
Theorem validation_failure_reported env body h st task_id run_id task group x :
  let wt := worker_type (self st) in
  let claim := ClaimTask task_id run_id wt wt in
  let before := [claim; GetTask task_id; ValidateTask task] in
  let report :=
    ReportException (Some task_id) (Some run_id) "malformed-payload" in
  body_task_id body = Ok task_id ->
  body_run_id body = Ok run_id ->
  is_ok (tc_claimTask env h task_id run_id wt wt) = true ->
  tc_task env (h ++ [claim]) task_id = Ok task ->
  getitem task "taskGroupId" = Ok group ->
  validate_task env task (supported_signing_scopes (self st)) = Raise x ->
  is_verification_error x = true ->
  events (process_message env body h st) =
    before ++ [report] ++
    (if is_ok (tc_reportException env (h ++ before) (Some task_id)
                 (Some run_id) "malformed-payload")
     then [Ack] else []) /\
  Forall (fun ev => is_signing_work ev = false)
    (events (process_message env body h st)) /\
  store_of (process_message env body h st) = st.
Proof.
  intros wt claim before report Ht Hr Hc Hk Hg Hv Hx.
  destruct (local_ids _ _ _ Ht Hr) as [Hlt Hlr].
  assert (Htry : process_message_try env body h st = (Raise x, st, before)).
  { unfold process_message_try.
    rewrite Ht, bind_lift_Ok, Hr, bind_lift_Ok, bind_gets, bind_call.
    fold wt. destruct (tc_claimTask env h task_id run_id wt wt); [|done].
    rewrite bind_call. fold claim. rewrite Hk.
    rewrite Hg, bind_lift_Ok, bind_gets, bind_call, Hv. done. }
  rewrite process_message_outcomes, Htry, Hlt, Hlr.
  fold report. unfold malformed_payload.
  destruct x; try done;
    destruct (tc_reportException env (h ++ before) (Some task_id)
                (Some run_id) "malformed-payload"); simpl;
    (split; [done|split; [|done]]); repeat constructor.
Qed.

Lemma claim_conflict_acked_witness :
  process_message Scenario.claim_conflict Scenario.body [] Scenario.start =
    (Ok tt, Scenario.start,
     [ClaimTask (JStr "T1") (JInt 1) "signing-worker" "signing-worker"; Ack]).
Proof.
  apply (claim_conflict_acked Scenario.claim_conflict Scenario.body []
           Scenario.start (JStr "T1") (JInt 1)); reflexivity.
Defined.

Lemma validation_failure_reported_witness :
  events (process_message Scenario.bad_scope Scenario.body [] Scenario.start) =
    [ClaimTask (JStr "T1") (JInt 1) "signing-worker" "signing-worker";
     GetTask (JStr "T1"); ValidateTask Scenario.task;
     ReportException (Some (JStr "T1")) (Some (JInt 1)) "malformed-payload";
     Ack].
Proof.
  apply (validation_failure_reported Scenario.bad_scope Scenario.body []
           Scenario.start (JStr "T1") (JInt 1) Scenario.task (JStr "G1")
           TaskVerificationError); reflexivity.
Defined.

(** * The acknowledgement policy *)

Lemma run_Acked evs p' : run Acked evs = Some p' -> evs = [].
Proof. destruct evs as [|[] evs]; simpl; by try done. Qed.

Lemma run_no_ack evs p p' :
  run p evs = Some p' -> p' <> Acked -> Forall (fun ev => is_ack ev = false) evs.
Proof.
  revert p. induction evs as [|e evs IH]; intros p Hrun Hp'; [done|].
  simpl in Hrun. destruct (step p e) as [p1|] eqn:Hstep; [|done].
  constructor; [|by eapply IH].
  destruct e; try done.
  assert (p1 = Acked) as -> by (destruct p; simpl in Hstep; congruence).
  rewrite (run_Acked _ _ Hrun) in Hrun. simpl in Hrun. congruence.
Qed.

(** The [try] block never acknowledges. *)
Lemma process_message_try_no_ack env body h st :
  Forall (fun ev => is_ack ev = false)
    (events (process_message_try env body h st)).
Proof.
  destruct (process_message_try_traces env body h st) as (p' & Hrun & Hq).
  eapply run_no_ack; [done|].
  destruct (result _); [by subst|]. destruct Hq as [Hq|[-> _]]; [|done].
  by destruct p'.
Qed.



(** * Conflicts after the claim *)

Lemma run_ExceptionReported evs p' :
  run ExceptionReported evs = Some p' -> p' = ExceptionReported \/ p' = Acked.
Proof.
  destruct evs as [|e evs]; simpl; [intros [= <-]; by left|].
  destruct e; simpl; try done.
  intros Hrun. right. rewrite (run_Acked _ _ Hrun) in Hrun. simpl in Hrun.
  congruence.
Qed.

Lemma run_no_report_exception evs p p' :
  run p evs = Some p' -> p' <> ExceptionReported -> p' <> Acked ->
  Forall (fun ev => is_report_exception ev = false) evs.
Proof.
  revert p. induction evs as [|e evs IH]; intros p Hrun Hp1 Hp2; [done|].
  simpl in Hrun. destruct (step p e) as [p1|] eqn:Hstep; [|done].
  constructor; [|by eapply IH].
  destruct e; try done.
  assert (p1 = ExceptionReported) as ->
    by (destruct p; simpl in Hstep; congruence).
  by destruct (run_ExceptionReported _ _ Hrun).
Qed.

(** The [try] block makes no report of an exception. *)
Lemma process_message_try_no_report_exception env body h st :
  Forall (fun ev => is_report_exception ev = false)
    (events (process_message_try env body h st)).
Proof.
  destruct (process_message_try_traces env body h st) as (p' & Hrun & Hq).
  eapply run_no_report_exception; [done| |];
    (destruct (result _); [by subst|]);
    (destruct Hq as [Hq|[-> _]]; [by destruct p'|done]).
Qed.

(** C10, as the code has it. A task-tracking failure that leaves the [try]
    block, whichever call raised it ([claimTask], [task], [createArtifact],
    [reportCompleted]), is swallowed when its status is 409: the message is
    acknowledged, once and as the last call, the handler returns normally,
    and no exception is reported for the task. With any other status the
    failure is raised again and no acknowledgement is sent. *)
Theorem conflict_swallowed env body h st code st1 e1 :
  process_message_try env body h st =
    (Raise (TaskclusterRestFailure code), st1, e1) ->
  process_message env body h st =
    (if bool_decide (code = 409)
     then (Ok tt, st1, e1 ++ [Ack])
     else (Raise (TaskclusterRestFailure code), st1, e1)) /\
  Forall (fun ev => is_ack ev = false /\ is_report_exception ev = false) e1.
Proof.
  intros Htry. split; [by rewrite process_message_outcomes, Htry|].
  pose proof (process_message_try_no_ack env body h st) as Hack.
  pose proof (process_message_try_no_report_exception env body h st) as Hrep.
  rewrite Htry in Hack, Hrep. unfold events in Hack, Hrep. simpl in Hack, Hrep.
  apply Forall_and. by split.
Qed.

Lemma conflict_swallowed_witness :
  let at_upload :=
    process_message_try Scenario.artifact_conflict Scenario.body []
      Scenario.start in
  let at_report :=
    process_message_try Scenario.completion_conflict Scenario.body []
      Scenario.start in
  (process_message Scenario.artifact_conflict Scenario.body [] Scenario.start =
     (Ok tt, store_of at_upload, events at_upload ++ [Ack]) /\
   Forall (fun ev => is_ack ev = false /\ is_report_exception ev = false)
     (events at_upload)) /\
  (process_message Scenario.completion_conflict Scenario.body []
       Scenario.start =
     (Ok tt, store_of at_report, events at_report ++ [Ack]) /\
   Forall (fun ev => is_ack ev = false /\ is_report_exception ev = false)
     (events at_report)).
Proof.
  split.
  - apply (conflict_swallowed Scenario.artifact_conflict Scenario.body []
             Scenario.start 409).
    vm_compute. reflexivity.
  - apply (conflict_swallowed Scenario.completion_conflict Scenario.body []
             Scenario.start 409).
    vm_compute. reflexivity.
Defined.

(** C10 as stated covers every call made while the message is processed;
    [reportException] is made from an [except] clause, outside the [try]
    block: a 409 raised there leaves the handler and the message is not
    acknowledged. *)
Lemma conflict_swallowed_counterexample :
  result (process_message Scenario.report_conflict Scenario.body []
            Scenario.start) = Raise (TaskclusterRestFailure 409) /\
  Forall (fun ev => is_ack ev = false)
    (events (process_message Scenario.report_conflict Scenario.body []
               Scenario.start)).
Proof. split; [reflexivity|]. vm_compute. repeat constructor. Qed.

(** * The configuration across a run *)

Lemma same_configuration_refl s : same_configuration s s.
Proof. by repeat split. Qed.

Lemma same_configuration_trans s1 s2 s3 :
  same_configuration s1 s2 -> same_configuration s2 s3 ->
  same_configuration s1 s3.
Proof.
  unfold same_configuration. intros H12 H23.
  destruct H12 as (?&?&?&?&?&?&?&?&?&?&?&?).
  destruct H23 as (?&?&?&?&?&?&?&?&?&?&?&?).
  repeat split; try congruence. by etrans.
Qed.

Lemma keeps_same_self {A} (m : M A) :
  (forall h st, self (store_of (m h st)) = self st) -> keeps_configuration m.
Proof. intros H h st. rewrite H. apply same_configuration_refl. Qed.

Lemma keeps_bind {A B} (m : M A) (f : A -> M B) :
  keeps_configuration m -> (forall a, keeps_configuration (f a)) ->
  keeps_configuration (bind m f).
Proof.
  intros Hm Hf h st. specialize (Hm h st).
  destruct (bind_inv m f h st) as [(a & st1 & e1 & Hrun & ->)
                                  |(x & st1 & e1 & Hrun & ->)];
    rewrite Hrun in Hm; unfold store_of in Hm; simpl in Hm; [|done].
  rewrite store_prepend. eapply same_configuration_trans; [done|]. apply Hf.
Qed.

Lemma keeps_catch {A} (m : M A) (k : exn -> M A) :
  keeps_configuration m -> (forall x, keeps_configuration (k x)) ->
  keeps_configuration (catch m k).
Proof.
  intros Hm Hk h st. specialize (Hm h st).
  destruct (m h st) as [[[a|x] st1] e1] eqn:Hrun;
    unfold store_of in Hm; simpl in Hm.
  - by rewrite (catch_Ok _ _ _ _ _ _ _ Hrun).
  - rewrite (catch_Raise _ _ _ _ _ _ _ Hrun), store_prepend.
    eapply same_configuration_trans; [done|]. apply Hk.
Qed.

Lemma keeps_retry_more {A} (action : M A) k :
  keeps_configuration action -> keeps_configuration (retry_more k action).
Proof.
  intros Ha. induction k as [|k IH]; simpl; [done|]. by apply keeps_catch.
Qed.

Lemma keeps_ret {A} (a : A) : keeps_configuration (ret a).
Proof. by apply keeps_same_self. Qed.
Lemma keeps_raise {A} x : keeps_configuration (@raise A x).
Proof. by apply keeps_same_self. Qed.
Lemma keeps_lift {A} (r : Res A) : keeps_configuration (lift r).
Proof. by apply keeps_same_self. Qed.
Lemma keeps_gets {A} (g : Store -> A) : keeps_configuration (gets g).
Proof. by apply keeps_same_self. Qed.
Lemma keeps_call {A} ev (answer : list Event -> Res A) :
  keeps_configuration (call ev answer).
Proof. by apply keeps_same_self. Qed.
Lemma keeps_mkdtemp : keeps_configuration mkdtemp.
Proof. by apply keeps_same_self. Qed.
Lemma keeps_mkstemp : keeps_configuration mkstemp.
Proof. by apply keeps_same_self. Qed.
Lemma keeps_rmtree d : keeps_configuration (rmtree d).
Proof. by apply keeps_same_self. Qed.
Lemma keeps_write_file path data : keeps_configuration (write_file path data).
Proof. apply keeps_same_self. intros h st. unfold write_file. by case_match. Qed.
Lemma keeps_read_file path : keeps_configuration (read_file path).
Proof. apply keeps_same_self. intros h st. unfold read_file. by case_match. Qed.
Lemma keeps_raise_for_status r : keeps_configuration (raise_for_status r).
Proof.
  apply keeps_same_self. intros h st. unfold raise_for_status. by case_match.
Qed.

#[local] Hint Resolve keeps_ret keeps_raise keeps_lift keeps_gets keeps_call
  keeps_mkdtemp keeps_mkstemp keeps_rmtree keeps_write_file keeps_read_file
  keeps_raise_for_status : runs.

Ltac keeps_steps :=
  repeat first
    [ solve [auto with runs]
    | apply keeps_bind; [|intros ?]
    | apply keeps_catch; [|intros ?]
    | apply keeps_retry_more
    | case_match ].

Section Configuration.

Variable env : Env.

Lemma swap_Permutation x i j : Permutation (swap x i j) x.
Proof.
  unfold swap. destruct (x !! i) as [a|] eqn:Hi; [|done].
  destruct (x !! j) as [b|] eqn:Hj; [|done].
  by apply Permutation_insert_swap.
Qed.

Lemma shuffle_from_Permutation i c x : Permutation (shuffle_from env i c x) x.
Proof.
  revert c x. induction i as [|i IH]; intros c x; simpl; [done|].
  rewrite IH. apply swap_Permutation.
Qed.

Lemma shuffle_Permutation c x : Permutation (shuffle env c x) x.
Proof. apply shuffle_from_Permutation. Qed.

Lemma keeps_shuffle : keeps_configuration (shuffle_signing_servers env).
Proof.
  intros h st. unfold shuffle_signing_servers, modify, store_of. simpl.
  repeat split; try done. apply shuffle_Permutation.
Qed.

Lemma keeps_token_loop auth servers :
  keeps_configuration (token_loop env auth servers).
Proof. induction servers as [|server rest IH]; simpl; keeps_steps. Qed.

Lemma keeps_get_token output_file :
  keeps_configuration (get_token env output_file).
Proof.
  unfold get_token, retriable, get_token_once.
  pose proof keeps_shuffle. pose proof keeps_token_loop. keeps_steps.
Qed.

Lemma keeps_get_manifest url : keeps_configuration (get_manifest env url).
Proof. unfold get_manifest, retriable, get_manifest_once. keeps_steps. Qed.

Lemma keeps_create_artifact task_id run_id dest abs_filename content_type :
  keeps_configuration
    (create_artifact env task_id run_id dest abs_filename content_type).
Proof.
  unfold create_artifact. apply keeps_bind; [by apply keeps_same_self|].
  intros res. keeps_steps.
Qed.

Lemma keeps_sign_file work_dir from_ to :
  keeps_configuration (sign_file env work_dir from_ to).
Proof.
  unfold sign_file. pose proof keeps_get_token.
  assert (forall g, (forall st, self (g st) = self st) ->
            keeps_configuration (modify g)) as Hmod
    by (intros g Hg; by apply keeps_same_self).
  keeps_steps.
Qed.

Lemma keeps_download_and_sign_file task_id run_id url checksum :
  keeps_configuration
    (download_and_sign_file env task_id run_id url checksum).
Proof.
  unfold download_and_sign_file.
  pose proof keeps_sign_file. pose proof keeps_create_artifact. keeps_steps.
Qed.

Lemma keeps_sign_entries task_id run_id url_prefix entries :
  keeps_configuration (sign_entries env task_id run_id url_prefix entries).
Proof.
  pose proof keeps_download_and_sign_file.
  induction entries as [|e rest IH]; simpl; unfold sign_entry; keeps_steps.
Qed.

Lemma keeps_sign task_id run_id task :
  keeps_configuration (sign env task_id run_id task).
Proof.
  unfold sign. pose proof keeps_get_manifest. pose proof keeps_sign_entries.
  pose proof keeps_create_artifact. keeps_steps.
Qed.

Lemma keeps_process_message body :
  keeps_configuration (process_message env body).
Proof.
  unfold process_message, process_message_try, process_message_except,
    message_ack.
  pose proof keeps_sign. keeps_steps.
Qed.

End Configuration.

(** C9, as the code has it. No run of [get_token] or of [process_message]
    changes the value of an attribute of the consumer, except that the list
    of signing servers may come out in another order: it holds the same
    servers, each as often as before. *)
Theorem configuration_kept env body output_file h st :
  same_configuration (self st)
    (self (store_of (get_token env output_file h st))) /\
  same_configuration (self st)
    (self (store_of (process_message env body h st))).
Proof. split; [apply keeps_get_token|apply keeps_process_message]. Qed.

(** C9 as stated fails: one token acquisition leaves the pool of the
    consumer in another order than the configured one. *)
Lemma configuration_kept_counterexample :
  signing_servers
    (self (store_of (get_token Scenario.all_well "/tmp/token" []
                       Scenario.start)))
  <> signing_servers (self Scenario.start).
Proof. vm_compute. discriminate. Qed.

(** * Token acquisition *)

Lemma retry_more_after_failures {A} (action : M A) n h st :
  exists k h' st',
    (k <= n)%nat /\
    after_failures action k h st = Some (h', st') /\
    result (retry_more n action h st) = result (action h' st') /\
    store_of (retry_more n action h st) = store_of (action h' st') /\
    h ++ events (retry_more n action h st) = h' ++ events (action h' st') /\
    (is_ok (result (retry_more n action h st)) = false -> k = n).
Proof.
  revert h st. induction n as [|n IH]; intros h st.
  { exists 0%nat, h, st. simpl. by repeat split. }
  simpl. destruct (action h st) as [[[a|x] st1] e1] eqn:Hrun.
  - exists 0%nat, h, st. rewrite (catch_Ok _ _ _ _ _ _ _ Hrun), Hrun. simpl.
    repeat split; try done; lia.
  - destruct (IH (h ++ e1) st1) as (k & h' & st' & Hk & Haf & Hr & Hs & He & Hl).
    exists (S k), h', st'. rewrite (catch_Raise _ _ _ _ _ _ _ Hrun).
    rewrite result_prepend, store_prepend, events_prepend. simpl. rewrite Hrun.
    repeat split; try done; [lia|by rewrite app_assoc|].
    intros Hf. by rewrite (Hl Hf).
Qed.

Section Tokens.

Variable env : Env.

Lemma nth_answer_0 auth server rest h :
  nth_answer env auth (server :: rest) h 0 =
    Some (token_answer (requests_post env h (token_url server))).
Proof. unfold nth_answer. simpl. by rewrite app_nil_r. Qed.

Lemma nth_answer_S auth server rest h i :
  nth_answer env auth (server :: rest) h (S i) =
    nth_answer env auth rest (h ++ [token_request env auth server]) i.
Proof. unfold nth_answer. simpl. by rewrite <- app_assoc. Qed.

(** The loop over the servers: the first [n] answer with an empty body;
    then either the list is exhausted, or the next answer ends the loop,
    with its token or with its exception. *)
Lemma token_loop_spec auth servers h st :
  let loop := token_loop env auth servers h st in
  store_of loop = st /\
  exists n,
    (forall i, (i < n)%nat -> nth_answer env auth servers h i = Some (Ok None)) /\
    match result loop with
    | Ok None =>
        n = length servers /\ events loop = token_request env auth <$> servers
    | r =>
        nth_answer env auth servers h n = Some r /\
        events loop = token_request env auth <$> take (S n) servers
    end.
Proof.
  revert h. induction servers as [|server rest IH]; intros h; simpl.
  { split; [done|]. exists 0%nat. split; [intros; lia|done]. }
  rewrite bind_call.
  destruct (requests_post env h (token_url server)) as [r|x] eqn:Hpost.
  2:{ split; [done|]. exists 0%nat. split; [intros; lia|].
      rewrite nth_answer_0, Hpost. simpl. by rewrite ?take_0. }
  unfold raise_for_status.
  destruct (is_error_status (status_code r)) eqn:Herr.
  { rewrite bind_raise. split; [done|]. exists 0%nat. split; [intros; lia|].
    rewrite nth_answer_0, Hpost. simpl. rewrite Herr. by rewrite ?take_0. }
  rewrite bind_ret. case_bool_decide as Hempty.
  - destruct (IH (h ++ [token_request env auth server])) as [Hst (n & Hn & Hres)].
    rewrite store_prepend, result_prepend, events_prepend.
    split; [done|]. exists (S n). split.
    + intros [|i] Hi.
      * rewrite nth_answer_0, Hpost. simpl. rewrite Herr.
        by rewrite bool_decide_eq_true_2.
      * rewrite nth_answer_S. apply Hn. lia.
    + rewrite nth_answer_S.
      destruct (result (token_loop env auth rest _ st)) as [[t|]|x];
        destruct Hres as [H1 H2]; simpl; rewrite H2; split; try done.
      by rewrite H1.
  - split; [done|]. exists 0%nat. split; [intros; lia|].
    rewrite nth_answer_0, Hpost. simpl. rewrite Herr.
    rewrite bool_decide_eq_false_2 by done. by rewrite ?take_0.
Qed.

End Tokens.

(** Every order of the pool can come out of the shuffle. *)

Lemma swap_length x i j : length (swap x i j) = length x.
Proof.
  unfold swap. destruct (x !! i); [|done]. destruct (x !! j); [|done].
  by rewrite !length_insert.
Qed.

Lemma swap_app x s i j :
  (i < length x)%nat -> (j < length x)%nat ->
  swap (x ++ s) i j = swap x i j ++ s.
Proof.
  intros Hi Hj. unfold swap. rewrite !lookup_app_l by done.
  destruct (lookup_lt_is_Some_2 x i Hi) as [a ->].
  destruct (lookup_lt_is_Some_2 x j Hj) as [b ->].
  rewrite insert_app_l by done.
  by rewrite insert_app_l by (by rewrite length_insert).
Qed.

Lemma shuffle_from_app env i c x s :
  (i < length x)%nat ->
  shuffle_from env i c (x ++ s) = shuffle_from env i c x ++ s.
Proof.
  revert c x. induction i as [|i IH]; intros c x Hi; simpl; [done|].
  assert (random_draw env c mod S (S i) < S (S i))%nat
    by (apply Nat.mod_upper_bound; lia).
  rewrite swap_app by lia. apply IH. rewrite swap_length. lia.
Qed.

Lemma shuffle_from_ext env1 env2 i c x :
  (forall n, (c <= n)%nat -> random_draw env1 n = random_draw env2 n) ->
  shuffle_from env1 i c x = shuffle_from env2 i c x.
Proof.
  revert c x. induction i as [|i IH]; intros c x Hd; simpl; [done|].
  rewrite (Hd c) by lia. apply IH. intros n Hn. apply Hd. lia.
Qed.

(** Swapping the last element with the one at [j] puts the latter last. *)
Lemma swap_last p b j a :
  (p ++ [b]) !! j = Some a ->
  exists p', length p' = length p /\ swap (p ++ [b]) (length p) j = p' ++ [a].
Proof.
  intros Hj. unfold swap.
  rewrite (list_lookup_middle p [] b (length p) eq_refl), Hj.
  destruct (decide (j < length p)%nat) as [Hlt|Hge].
  - exists (<[j := b]> p). split; [by rewrite length_insert|].
    rewrite (insert_app_r_alt p [b] (length p)) by lia.
    rewrite Nat.sub_diag. simpl.
    by rewrite insert_app_l by done.
  - assert (j = length p) as ->.
    { apply lookup_lt_Some in Hj. rewrite length_app in Hj. simpl in Hj. lia. }
    rewrite (list_lookup_middle p [] b (length p) eq_refl) in Hj.
    injection Hj as <-. exists p. split; [done|].
    rewrite !(insert_app_r_alt p _ (length p)) by lia.
    by rewrite Nat.sub_diag.
Qed.

Lemma shuffle_from_reaches env i c x order :
  length x = S i -> Permutation x order ->
  exists draws, shuffle_from (with_random_draw draws env) i c x = order.
Proof.
  revert c x order. induction i as [|i IH]; intros c x order Hlen Hperm.
  { exists (fun _ => O). simpl.
    destruct x as [|a [|??]]; try done.
    by apply Permutation_singleton_l in Hperm. }
  destruct (nil_or_length_pos order) as [->|Hpos].
  { apply Permutation_nil_r in Hperm. by subst x. }
  destruct (exists_last (l := order)) as (q & a & ->).
  { intros ->. simpl in Hpos. lia. }
  destruct (exists_last (l := x)) as (p & b & ->).
  { by intros ->. }
  rewrite length_app in Hlen. simpl in Hlen.
  assert (Hp : length p = S i) by lia.
  assert (Hin : a ∈ p ++ [b]).
  { rewrite Hperm. apply elem_of_app. right. by apply list_elem_of_singleton. }
  apply list_elem_of_lookup in Hin as [j Hj].
  destruct (swap_last p b j a Hj) as (p' & Hp' & Hswap).
  assert (Hperm' : Permutation p' q).
  { apply (Permutation_app_inv_r [a]).
    rewrite <- Hswap, swap_Permutation. done. }
  destruct (IH (S c) p' q) as [draws' Hdraws']; [lia|done|].
  exists (fun n => if decide (n = c) then j else draws' n).
  cbn [shuffle_from]. cbn [random_draw with_random_draw].
  rewrite decide_True by done.
  assert (Hjlt : (j < S (S i))%nat).
  { apply lookup_lt_Some in Hj. rewrite length_app in Hj. simpl in Hj. lia. }
  rewrite (Nat.mod_small j (S (S i))) by done.
  rewrite <- Hp, Hswap.
  rewrite shuffle_from_app by lia.
  rewrite (shuffle_from_ext _ (with_random_draw draws' env)).
  - by rewrite Hdraws'.
  - intros n Hn. simpl. rewrite decide_False; [done|lia].
Qed.

Lemma shuffle_reaches env c x order :
  Permutation x order ->
  exists draws, shuffle (with_random_draw draws env) c x = order.
Proof.
  intros Hperm. unfold shuffle. destruct x as [|a x].
  { apply Permutation_nil_l in Hperm. subst order. by exists (fun _ => O). }
  apply shuffle_from_reaches; [|done]. simpl. lia.
Qed.



(** * The kinds of calls a method makes *)

Lemma emits_silent {A} (P : Event -> Prop) (m : M A) : silent m -> emits P m.
Proof. intros Hs h st. by rewrite Hs. Qed.

Lemma emits_call {A} (P : Event -> Prop) ev (answer : list Event -> Res A) :
  P ev -> emits P (call ev answer).
Proof. intros Hev h st. by constructor. Qed.

Lemma emits_bind {A B} (P : Event -> Prop) (m : M A) (f : A -> M B) :
  emits P m -> (forall a, emits P (f a)) -> emits P (bind m f).
Proof.
  intros Hm Hf h st. specialize (Hm h st).
  destruct (bind_inv m f h st) as [(a & st1 & e1 & Hrun & ->)
                                  |(x & st1 & e1 & Hrun & ->)];
    rewrite Hrun in Hm; unfold events in Hm; simpl in Hm; [|done].
  rewrite events_prepend. apply Forall_app. split; [done|]. apply Hf.
Qed.

Lemma emits_catch {A} (P : Event -> Prop) (m : M A) (k : exn -> M A) :
  emits P m -> (forall x, emits P (k x)) -> emits P (catch m k).
Proof.
  intros Hm Hk h st. specialize (Hm h st).
  destruct (m h st) as [[[a|x] st1] e1] eqn:Hrun;
    unfold events in Hm; simpl in Hm.
  - by rewrite (catch_Ok _ _ _ _ _ _ _ Hrun).
  - rewrite (catch_Raise _ _ _ _ _ _ _ Hrun), events_prepend.
    apply Forall_app. split; [done|]. apply Hk.
Qed.

Lemma emits_retry_more {A} (P : Event -> Prop) (action : M A) k :
  emits P action -> emits P (retry_more k action).
Proof.
  intros Ha. induction k as [|k IH]; simpl; [done|]. by apply emits_catch.
Qed.

Section Requests.

Variable env : Env.

Lemma token_loop_emits auth servers :
  emits (fun ev => is_post_token ev = true) (token_loop env auth servers).
Proof.
  induction servers as [|server rest IH]; simpl.
  - by apply emits_silent.
  - apply emits_bind; [by apply emits_call|]. intros r.
    apply emits_bind; [apply emits_silent; auto with runs|]. intros _.
    case_bool_decide; [done|by apply emits_silent].
Qed.

Lemma get_token_emits output_file :
  emits (fun ev => is_post_token ev = true) (get_token env output_file).
Proof.
  unfold get_token, retriable. apply emits_retry_more. unfold get_token_once.
  apply emits_bind; [by apply emits_silent|]. intros _.
  apply emits_bind; [by apply emits_silent|]. intros servers.
  apply emits_bind; [by apply emits_silent|]. intros auth.
  apply emits_bind; [apply token_loop_emits|].
  intros [t|]; apply emits_silent; auto with runs.
Qed.

(** [sign_file]: token requests, then at most one run of the signing tool;
    when it returns, the tool has run last and the file holds its output. *)
Lemma sign_file_spec work_dir from_ h st :
  let signing := sign_file env work_dir from_ None h st in
  exists before,
    Forall (fun ev => is_post_token ev = true) before /\
    ((is_ok (result signing) = false /\
      (events signing = before \/
       exists cmd, events signing = before ++ [SignTool cmd work_dir])) \/
     (exists cmd fs out,
        result signing = Ok tt /\
        events signing = before ++ [SignTool cmd work_dir] /\
        sh_python env (h ++ before) fs cmd work_dir = Ok out /\
        files (store_of signing) !! path_join work_dir from_ = Some out)).
Proof.
  intros signing. unfold signing, sign_file. simpl.
  pose proof (get_token_emits (path_join work_dir "token") h st) as Hposts.
  destruct (get_token env (path_join work_dir "token") h st)
    as [[[[]|x] st1] e1] eqn:Htoken; unfold events in Hposts; simpl in Hposts;
    exists e1; (split; [done|]).
  2:{ left. rewrite (bind_Raise _ _ _ _ _ _ _ Htoken). split; [done|by left]. }
  rewrite (bind_Ok _ _ _ _ _ _ _ Htoken), bind_gets, bind_gets, bind_call.
  destruct (sh_python env (h ++ e1) (files st1) _ work_dir) as [out|x] eqn:Htool.
  - right. eexists _, (files st1), out.
    rewrite result_prepend, events_prepend, store_prepend.
    repeat split; try done. simpl. by rewrite lookup_insert_eq.
  - left. split; [done|]. right. by eexists.
Qed.

(** [create_artifact]: the artifact is created under [dest]; what is sent
    next, if anything, is the content of the file at that time. *)
Lemma create_artifact_spec task_id run_id dest abs_filename content_type h st :
  let uploading :=
    create_artifact env task_id run_id dest abs_filename content_type h st in
  let created :=
    CreateArtifact task_id run_id dest content_type (arrow_expires env h) in
  store_of uploading = st /\
  ((is_ok (result uploading) = false /\ events uploading = [created]) \/
   (exists data put_url,
      files st !! abs_filename = Some data /\
      events uploading =
        [created; PutFile abs_filename data put_url content_type])).
Proof.
  intros uploading created. unfold uploading, create_artifact.
  destruct (tc_createArtifact env h task_id run_id dest content_type)
    as [res|x] eqn:Hcreate.
  2:{ erewrite bind_Raise; [|by rewrite Hcreate]. split; [done|by left]. }
  erewrite bind_Ok; [|by rewrite Hcreate]. fold created.
  rewrite store_prepend, result_prepend, events_prepend.
  destruct (getitem res "putUrl") as [put_url|x];
    [rewrite bind_lift_Ok|rewrite bind_lift_Raise; split; [done|by left]].
  destruct (files st !! abs_filename) as [data|] eqn:Hdata.
  2:{ assert (Hread : read_file abs_filename (h ++ [created]) st =
                (Raise (IOError abs_filename), st, []))
        by (unfold read_file; by rewrite Hdata).
      rewrite (bind_Raise _ _ _ _ _ _ _ Hread). split; [done|by left]. }
  assert (Hread : read_file abs_filename (h ++ [created]) st = (Ok data, st, []))
    by (unfold read_file; by rewrite Hdata).
  rewrite (bind_pure _ _ _ _ _ Hread).
  split; [done|]. right. by exists data, put_url.
Qed.

End Requests.

(** * One file of the manifest *)

Section OneFile.

Variable env : Env.

(** Once the download has been written, [download_and_sign_file] goes on
    with the checksum of what it has written. *)
Lemma download_and_sign_file_downloaded task_id run_id url checksum h st r :
  let work_dir := work_dir_of st in
  let filename := url_filename env url in
  let abs_filename := path_join work_dir filename in
  let st' := downloaded st abs_filename (content r) in
  let got_checksum := get_hash env (content r) in
  requests_get env h url = Ok r ->
  is_error_status (status_code r) = false ->
  writable (store_of (mkdtemp h st)) abs_filename = true ->
  download_and_sign_file env task_id run_id url checksum h st =
    prepend [Download url]
      (if negb (str_eq_json got_checksum checksum)
       then (rmtree work_dir;;;
             raise (ChecksumMismatchError checksum got_checksum url))
              (h ++ [Download url]) st'
       else (sign_file env work_dir filename None;;;
             create_artifact env task_id run_id ("public/env/" +:+ filename)
               abs_filename octet_stream;;;
             ret abs_filename) (h ++ [Download url]) st').
Proof.
  intros work_dir filename abs_filename st' got_checksum Hget Herr Hw.
  unfold download_and_sign_file.
  erewrite bind_Ok; [|reflexivity]. rewrite app_nil_r, prepend_nil.
  fold work_dir filename abs_filename.
  rewrite bind_call, Hget. f_equal.
  unfold raise_for_status. rewrite Herr, bind_ret.
  assert (Hwrite : write_file abs_filename (content r) (h ++ [Download url])
                     (store_of (mkdtemp h st)) = (Ok tt, st', []))
    by (unfold write_file; by rewrite Hw).
  etrans; [apply bind_Ok; exact Hwrite|].
  rewrite app_nil_r, prepend_nil.
  etrans.
  { apply (bind_pure _ _ _ _ (content r)).
    unfold read_file, st', downloaded. simpl. by rewrite lookup_insert_eq. }
  fold got_checksum. by destruct (negb _).
Qed.

Lemma rmtree_removes d h st path :
  let st' := store_of (rmtree d h st) in
  (d ∉ dirs st') /\ (under d path = true -> files st' !! path = None).
Proof.
  simpl. split.
  { apply not_elem_of_difference. right. by apply elem_of_singleton. }
  intros Hunder.
  apply map_lookup_filter_None. right. intros data _. simpl. by rewrite Hunder.
Qed.

End OneFile.

(** * Signing comes before the upload *)




(** * The manifest across the pipeline *)

Lemma bind_Ok_inv {A B} (m : M A) (f : A -> M B) h st :
  is_ok (result (bind m f h st)) = true ->
  exists a st1 e1,
    m h st = (Ok a, st1, e1) /\
    bind m f h st = prepend e1 (f a (h ++ e1) st1).
Proof.
  intros Hok.
  destruct (bind_inv m f h st) as [(a & st1 & e1 & Hrun & Heq)
                                  |(x & st1 & e1 & Hrun & Heq)].
  - by exists a, st1, e1.
  - by rewrite Heq in Hok.
Qed.

Lemma lift_Ok_inv {A} (r : Res A) h st a st1 e1 :
  lift r h st = (Ok a, st1, e1) -> r = Ok a /\ st1 = st /\ e1 = [].
Proof. unfold lift. by intros [= -> -> <-]. Qed.

Section Manifest.

Variable env : Env.

Lemma sign_entry_updates task_id run_id url_prefix e h st e' st1 e1 :
  sign_entry env task_id run_id url_prefix e h st = (Ok e', st1, e1) ->
  entry_updated e e'.
Proof.
  unfold sign_entry. intros Hrun.
  destruct e; try done. rename m into fields.
  destruct (getitem (JObj fields) "mar") as [mar|]; [|done].
  rewrite bind_lift_Ok in Hrun.
  destruct (getitem (JObj fields) "hash") as [checksum|]; [|done].
  rewrite bind_lift_Ok in Hrun.
  destruct (bind_inv (download_and_sign_file env task_id run_id
              (url_prefix +:+ "/" +:+ format_json env mar) checksum)
              (fun abs_filename =>
                 data <- read_file abs_filename;;
                 e1 <- lift (setitem (JObj fields) "hash"
                               (JStr (get_hash env data)));;
                 lift (setitem e1 "size"
                         (JInt (Z.of_nat (String.length data))))) h st)
    as [(abs_filename & st2 & e2 & _ & Heq)|(x & st2 & e2 & _ & Heq)];
    rewrite Heq in Hrun; [|done].
  clear Heq. unfold prepend, result, store_of, events in Hrun.
  destruct (bind_inv (read_file abs_filename)
              (fun data =>
                 e1 <- lift (setitem (JObj fields) "hash"
                               (JStr (get_hash env data)));;
                 lift (setitem e1 "size"
                         (JInt (Z.of_nat (String.length data)))))
              (h ++ e2) st2)
    as [(data & st3 & e3 & _ & Heq)|(x & st3 & e3 & _ & Heq)];
    rewrite Heq in Hrun; [|done].
  clear Heq. simpl in Hrun. rewrite bind_lift_Ok in Hrun.
  simpl in Hrun. injection Hrun as <- _ _.
  eexists fields, _. split; [done|]. split; [done|].
  intros k Hh Hs. by rewrite !lookup_insert_ne.
Qed.

Lemma sign_entries_updates task_id run_id url_prefix entries h st
    entries' st1 e1 :
  sign_entries env task_id run_id url_prefix entries h st
    = (Ok entries', st1, e1) ->
  Forall2 entry_updated entries entries'.
Proof.
  revert h st entries' st1 e1.
  induction entries as [|e rest IH]; intros h st entries' st1 e1; simpl.
  { by intros [= <- _ _]. }
  intros Hrun.
  destruct (sign_entry env task_id run_id url_prefix e h st)
    as [[[e'|x] st2] e2] eqn:Hentry.
  2:{ by rewrite (bind_Raise _ _ _ _ _ _ _ Hentry) in Hrun. }
  rewrite (bind_Ok _ _ _ _ _ _ _ Hentry) in Hrun.
  destruct (sign_entries env task_id run_id url_prefix rest (h ++ e2) st2)
    as [[[rest'|x] st3] e3] eqn:Hrest.
  2:{ by rewrite (bind_Raise _ _ _ _ _ _ _ Hrest) in Hrun. }
  rewrite (bind_Ok _ _ _ _ _ _ _ Hrest) in Hrun.
  injection Hrun as <- _ _. constructor.
  - by eapply sign_entry_updates.
  - by eapply IH.
Qed.

End Manifest.

Ltac invert_ok H :=
  let a := fresh "a" in
  let st1 := fresh "st" in
  let e1 := fresh "e" in
  let Hm := fresh "Hrun" in
  let Heq := fresh "Heq" in
  destruct (bind_Ok_inv _ _ _ _ H) as (a & st1 & e1 & Hm & Heq);
  rewrite Heq in H |- *; rewrite result_prepend in H;
  rewrite ?events_prepend; clear Heq.

(** C7. When [sign] returns, the manifest it has sent is the manifest it
    fetched with every entry updated in its place: as many entries, in the
    same order, each an object that agrees with the fetched one on every
    key other than ["hash"] and ["size"] (the file reference included). *)
Theorem manifest_entries_preserved env task_id run_id task h st :
  is_ok (result (sign env task_id run_id task h st)) = true ->
  exists payload url input output before manifest_file put_url,
    getitem task "payload" = Ok payload /\
    getitem payload "signingManifest" = Ok url /\
    result (get_manifest env url h st) = Ok input /\
    manifest_preserved input output /\
    events (sign env task_id run_id task h st) =
      before ++ [PutFile manifest_file (json_dumps env output) put_url
                   "application/json"].
Proof.
  unfold sign. intros Hok.
  invert_ok Hok. apply lift_Ok_inv in Hrun as (Hpayload & -> & ->).
  rename a into payload.
  invert_ok Hok. apply lift_Ok_inv in Hrun as (Hurl & -> & ->).
  rename a into url. rewrite !app_nil_r in *.
  invert_ok Hok. rename a into input, Hrun into Hfetch.
  invert_ok Hok. apply lift_Ok_inv in Hrun as (_ & -> & ->).
  invert_ok Hok. apply lift_Ok_inv in Hrun as (Hiter & -> & ->).
  rename a0 into entries. rewrite !app_nil_r in *.
  invert_ok Hok. rename a0 into entries', Hrun into Hloop.
  apply sign_entries_updates in Hloop.
  invert_ok Hok. rename a0 into manifest_file.
  injection Hrun as <- <- <-. rewrite !app_nil_r in *.
  invert_ok Hok. unfold write_file in Hrun.
  destruct (writable _ _); [|done]. injection Hrun as _ <- <-.
  rewrite !app_nil_r in *.
  set (output := match input with JArr _ => JArr entries' | other => other end)
    in *.
  match type of Hok with
  | is_ok (result (create_artifact _ _ _ _ _ _ ?h' ?st')) = true =>
      destruct (create_artifact_spec env task_id run_id manifest_json
                  (tmp_name (tmp_count st1)) "application/json" h' st')
        as [_ [[Hfail _]|(data & put_url & Hdata & Hev)]];
        [by rewrite Hfail in Hok|]
  end.
  simpl in Hdata. rewrite lookup_insert_eq in Hdata. injection Hdata as <-.
  rewrite Hev.
  exists payload, url, input, output,
    (e ++ e0 ++ [CreateArtifact task_id run_id manifest_json "application/json"
                   (arrow_expires env ((h ++ e) ++ e0))]),
    (tmp_name (tmp_count st1)), put_url.
  split; [done|]. split; [done|]. split; [by rewrite Hfetch|]. split.
  - unfold output. destruct input; try done. simpl in Hiter.
    by injection Hiter as ->.
  - simpl. by rewrite <- !app_assoc.
Qed.

Lemma manifest_entries_preserved_witness :
  exists payload url input output before manifest_file put_url,
    getitem Scenario.task "payload" = Ok payload /\
    getitem payload "signingManifest" = Ok url /\
    result (get_manifest Scenario.all_well url [] Scenario.start) = Ok input /\
    manifest_preserved input output /\
    events (sign Scenario.all_well (JStr "T1") (JInt 1) Scenario.task []
              Scenario.start) =
      before ++ [PutFile manifest_file (json_dumps Scenario.all_well output)
                   put_url "application/json"].
Proof.
  apply (manifest_entries_preserved Scenario.all_well (JStr "T1") (JInt 1)
           Scenario.task [] Scenario.start).
  vm_compute. reflexivity.
Defined.

(** * Checksum mismatches *)

Section Mismatch.

Variable env : Env.

Lemma bind_ret_r {A} (m : M A) h st : bind m ret h st = m h st.
Proof.
  destruct (m h st) as [[[a|x] st1] e1] eqn:Hrun.
  - rewrite (bind_Ok _ _ _ _ _ _ _ Hrun). unfold prepend. simpl.
    by rewrite app_nil_r.
  - by rewrite (bind_Raise _ _ _ _ _ _ _ Hrun).
Qed.

(** The loop stops at the first entry whose body raises. *)
Lemma sign_entries_stops task_id run_id url_prefix pre e post h st
    pre' st1 e1 x st2 e2 :
  sign_entries env task_id run_id url_prefix pre h st = (Ok pre', st1, e1) ->
  sign_entry env task_id run_id url_prefix e (h ++ e1) st1 = (Raise x, st2, e2) ->
  sign_entries env task_id run_id url_prefix (pre ++ e :: post) h st =
    (Raise x, st2, e1 ++ e2).
Proof.
  revert h st pre' st1 e1.
  induction pre as [|e0 pre IH]; intros h st pre' st1 e1 Hpre Hentry; simpl.
  - injection Hpre as _ <- <-. rewrite app_nil_r in Hentry.
    by rewrite (bind_Raise _ _ _ _ _ _ _ Hentry).
  - simpl in Hpre.
    destruct (sign_entry env task_id run_id url_prefix e0 h st)
      as [[[e0'|y] st3] e3] eqn:Hfirst.
    2:{ by rewrite (bind_Raise _ _ _ _ _ _ _ Hfirst) in Hpre. }
    rewrite (bind_Ok _ _ _ _ _ _ _ Hfirst) in Hpre.
    rewrite (bind_Ok _ _ _ _ _ _ _ Hfirst).
    destruct (sign_entries env task_id run_id url_prefix pre (h ++ e3) st3)
      as [[[rest'|y] st4] e4] eqn:Hrest.
    2:{ by rewrite (bind_Raise _ _ _ _ _ _ _ Hrest) in Hpre. }
    rewrite (bind_Ok _ _ _ _ _ _ _ Hrest) in Hpre.
    injection Hpre as _ <- <-. simpl in Hentry.
    rewrite app_nil_r, app_assoc in Hentry.
    erewrite bind_Raise; [|by eapply IH].
    unfold prepend. simpl. by rewrite app_nil_r, app_assoc.
Qed.

Lemma download_and_sign_file_mismatch task_id run_id url checksum h st r :
  let work_dir := work_dir_of st in
  let abs_filename := path_join work_dir (url_filename env url) in
  let handled := download_and_sign_file env task_id run_id url checksum h st in
  requests_get env h url = Ok r ->
  is_error_status (status_code r) = false ->
  writable (store_of (mkdtemp h st)) abs_filename = true ->
  str_eq_json (get_hash env (content r)) checksum = false ->
  result handled =
    Raise (ChecksumMismatchError checksum (get_hash env (content r)) url) /\
  events handled = [Download url] /\
  (work_dir ∉ dirs (store_of handled)) /\
  (forall path, under work_dir path = true ->
     files (store_of handled) !! path = None).
Proof.
  intros work_dir abs_filename handled Hget Herr Hw Hsum. unfold handled.
  rewrite (download_and_sign_file_downloaded env task_id run_id url checksum
             h st r Hget Herr Hw).
  rewrite Hsum. simpl negb. cbv iota.
  rewrite result_prepend, events_prepend, store_prepend.
  unfold rmtree. rewrite bind_modify.
  repeat split; try done.
  - apply (rmtree_removes work_dir [] _ EmptyString).
  - intros path. apply (rmtree_removes work_dir [] _ path).
Qed.

End Mismatch.

Lemma no_report_before_download evs url p p' :
  run p (evs ++ [Download url; Ack]) = Some p' ->
  Forall (fun ev => is_report_completed ev = false /\
                    is_report_exception ev = false)
    (evs ++ [Download url; Ack]).
Proof.
  intros Hrun. apply Forall_app. split; [|by repeat constructor].
  apply Forall_lookup. intros i a Hi.
  destruct (is_report_completed a || is_report_exception a) eqn:Hrep.
  2:{ by apply orb_false_elim in Hrep. }
  assert (Hafter : nothing_after
            (fun ev => is_report_completed ev || is_report_exception ev)
            is_download (evs ++ [Download url; Ack])).
  { apply (run_nothing_after _ _ reported) with (p := p) (p' := p');
      [by_cases_on_step|by_cases_on_step|by_cases_on_step|by intros []
      |exact Hrun]. }
  assert (length evs < i)%nat; [|apply lookup_lt_Some in Hi; lia].
  eapply (Hafter i (length evs) a (Download url)); try done.
  - by apply lookup_app_l_Some.
  - by rewrite lookup_app_r, Nat.sub_diag.
Qed.



(** * A whole run

    The task of the scenarios when everything goes well: one file signed and
    uploaded, then the manifest, then the completion report. *)
Example all_well_run :
  let handled :=
    process_message Scenario.all_well Scenario.body [] Scenario.start in
  result handled = Ok tt /\
  is_signing_work <$> events handled =
    [false; false; false; true; true; true; true; true; true; true; true;
     false; false] /\
  last (events handled) = Some Ack /\
  files (store_of handled) !! "/tmp/tmp0/firefox.mar" = Some "signed".
Proof. repeat split; reflexivity. Qed.

(** * Further properties of the consumer *)

(** ** URLs and file names *)

Lemma split_nonempty sep s : split sep s <> [].
Proof.
  destruct s as [|c s]; simpl; [done|].
  case_bool_decide; [done|]. by destruct (split sep s).
Qed.

Lemma join_cons sep w w' ws :
  join sep (w :: w' :: ws) = w +:+ sep +:+ join sep (w' :: ws).
Proof. done. Qed.

Lemma append_assoc (a b c : string) : (a +:+ b) +:+ c = a +:+ b +:+ c.
Proof.
  induction a as [|x a IH]; [done|]. exact (f_equal (String x) IH).
Qed.

Lemma join_snoc sep l w :
  l <> [] -> join sep (l ++ [w]) = join sep l +:+ sep +:+ w.
Proof.
  induction l as [|w0 l IH]; [done|]. intros _.
  destruct l as [|w1 l]; [done|].
  change ((w0 :: w1 :: l) ++ [w]) with (w0 :: w1 :: l ++ [w]).
  rewrite !join_cons.
  change (w1 :: l ++ [w]) with ((w1 :: l) ++ [w]). rewrite IH by done.
  by rewrite !append_assoc.
Qed.

Lemma split_app_sep sep s1 s2 :
  split sep (s1 +:+ String sep s2) = split sep s1 ++ split sep s2.
Proof.
  induction s1 as [|c s1 IH]; simpl.
  - by rewrite bool_decide_eq_true_2.
  - rewrite IH. case_bool_decide; [done|].
    pose proof (split_nonempty sep s1). by destruct (split sep s1).
Qed.

(** X1. ["/".join(s.split("/"))] gives [s] back, for any separator: the
    base URL [sign] computes loses nothing but the last segment. *)
Theorem join_split sep s : join (String sep EmptyString) (split sep s) = s.
Proof.
  induction s as [|c s IH]; simpl; [done|].
  pose proof (split_nonempty sep s) as Hne.
  case_bool_decide as Hc.
  - destruct (split sep s) as [|w ws] eqn:Hs; [done|].
    rewrite join_cons, IH. simpl. by rewrite Hc.
  - destruct (split sep s) as [|w ws] eqn:Hs; [done|].
    destruct ws as [|w' ws]; simpl in *; [by rewrite IH|].
    by rewrite <- IH.
Qed.

Lemma split_contains sep s :
  In sep (String.list_ascii_of_string s) -> (2 <= length (split sep s))%nat.
Proof.
  induction s as [|c s IH]; simpl; [done|].
  pose proof (split_nonempty sep s) as Hne.
  intros [->|Hin].
  - rewrite bool_decide_eq_true_2 by done. simpl.
    destruct (split sep s); [done|simpl; lia].
  - case_bool_decide; simpl.
    + destruct (split sep s); [done|simpl; lia].
    + specialize (IH Hin). destruct (split sep s); simpl in *; lia.
Qed.

Lemma removelast_last {A} (l : list A) x :
  last l = Some x -> l = removelast l ++ [x].
Proof.
  induction l as [|y l IH]; [done|]. destruct l as [|z l].
  - by intros [= ->].
  - intros Hl. simpl. f_equal. by apply IH.
Qed.

(** X2. For a manifest URL with a slash in it, the base URL of [sign]
    followed by ["/"] and the last segment is the manifest URL itself: the
    files of the manifest are fetched from beside the manifest. *)
Theorem url_prefix_sibling (u : string) :
  In "/"%char (String.list_ascii_of_string u) ->
  join "/" (removelast (split "/" u)) +:+ "/" +:+
    default EmptyString (last (split "/" u)) = u.
Proof.
  intros Hin. apply split_contains in Hin.
  destruct (last (split "/" u)) as [w|] eqn:Hlast.
  2:{ apply last_None in Hlast. rewrite Hlast in Hin. simpl in Hin. lia. }
  simpl. pose proof (removelast_last _ _ Hlast) as Hsplit.
  transitivity (join "/" (removelast (split "/" u) ++ [w])).
  - symmetry. apply join_snoc. intros Hnil.
    rewrite Hnil in Hsplit. rewrite Hsplit in Hin. simpl in Hin. lia.
  - rewrite <- Hsplit. apply join_split.
Qed.

Lemma url_prefix_sibling_witness :
  join "/" (removelast (split "/" Scenario.manifest_url)) +:+ "/" +:+
    default EmptyString (last (split "/" Scenario.manifest_url))
  = Scenario.manifest_url.
Proof.
  apply (url_prefix_sibling Scenario.manifest_url). simpl. auto 10.
Defined.

Lemma split_no_sep sep s w :
  w ∈ split sep s -> ~ In sep (String.list_ascii_of_string w).
Proof.
  revert w. induction s as [|c s IH]; intros w; simpl.
  - intros ->%list_elem_of_singleton. by intros [].
  - pose proof (split_nonempty sep s) as Hne.
    case_bool_decide as Hc.
    + intros [->|Hw]%elem_of_cons; [by intros []|by apply IH].
    + destruct (split sep s) as [|w0 ws] eqn:Hs; [done|].
      intros [->|Hw]%elem_of_cons.
      * simpl. intros [<-|Hin]; [done|].
        by apply (IH w0); [left|].
      * apply IH. by right.
Qed.

(** X3. The file name [download_and_sign_file] takes from the URL, the last
    segment of its path, has no slash in it, whatever the URL: the artifact
    name [public/env/<filename>] never gains a path segment. *)
Theorem url_filename_no_slash env url :
  ~ In "/"%char (String.list_ascii_of_string (url_filename env url)).
Proof.
  unfold url_filename.
  destruct (last (split "/" (urlsplit_path env url))) as [w|] eqn:Hlast;
    [|by intros []].
  simpl. eapply split_no_sep.
  apply removelast_last in Hlast. rewrite Hlast. set_solver.
Qed.

Lemma split_star sep s :
  split sep (String "*" (String sep s)) =
    (if bool_decide ("*"%char = sep) then [EmptyString; EmptyString]
     else ["*"]) ++ split sep s.
Proof. apply (split_app_sep sep "*" s). Qed.

(** X4. The routing key [__init__] builds has the worker type as its words
    from the seventh on, after six ["*"] and before a final ["#"]. *)
Theorem routing_key_words connection exchange queue_name worker_type
    taskcluster_config signing_servers signing_server_auth
    supported_signing_scopes tools_checkout :
  split "." (routing_key (init connection exchange queue_name worker_type
                            taskcluster_config signing_servers
                            signing_server_auth supported_signing_scopes
                            tools_checkout)) =
    replicate 6 "*" ++ split "." worker_type ++ ["#"].
Proof.
  unfold init, routing_key.
  change ("*.*.*.*.*.*." +:+ worker_type +:+ ".#") with
    (String "*" (String "." (String "*" (String "." (String "*" (String "."
      (String "*" (String "." (String "*" (String "." (String "*" (String "."
        (worker_type +:+ String "." "#"))))))))))))).
  rewrite !split_star, split_app_sep. done.
Qed.

(** ** Once per message *)

Lemma run_at_most_once (A : Event -> bool) (after : Phase -> bool) :
  (forall p e p', step p e = Some p' -> A e = true -> after p' = true) ->
  (forall p e p', step p e = Some p' -> after p = true -> after p' = true) ->
  (forall p e p', step p e = Some p' -> after p = true -> A e = false) ->
  forall evs p p', run p evs = Some p' -> at_most_once A evs.
Proof.
  intros Hinto Hstay Hno evs.
  induction evs as [|e evs IH]; intros p p' Hrun i j a b Hi Hj Ha Hb; [done|].
  simpl in Hrun. destruct (step p e) as [p1|] eqn:Hstep; [|done].
  destruct i as [|i], j as [|j]; simpl in Hi, Hj; try done.
  - injection Hi as ->.
    assert (A b = false) as Hb'; [|by rewrite Hb' in Hb].
    eapply (run_never A after Hstay Hno evs p1 p'); [|done|done].
    by eapply Hinto.
  - injection Hj as ->.
    assert (A a = false) as Ha'; [|by rewrite Ha' in Ha].
    eapply (run_never A after Hstay Hno evs p1 p'); [|done|done].
    by eapply Hinto.
  - f_equal. by eapply IH.
Qed.

(** X5. Whatever the outside world answers, one message leads to at most
    one claim, one task fetch, one validation, one completion report, one
    exception report and one acknowledgement. *)
Theorem once_per_message env body h st :
  let evs := events (process_message env body h st) in
  at_most_once is_claim evs /\
  at_most_once is_get_task evs /\
  at_most_once is_validate evs /\
  at_most_once is_report_completed evs /\
  at_most_once is_report_exception evs /\
  at_most_once is_ack evs.
Proof.
  intros evs.
  destruct (process_message_run env body h st) as [p' Hrun].
  fold evs in Hrun.
  repeat split.
  - apply (run_at_most_once _
             (fun p => match p with Received => false | _ => true end))
      with (p := Received) (p' := p');
      [by_cases_on_step|by_cases_on_step|by_cases_on_step|exact Hrun].
  - apply (run_at_most_once _
             (fun p => match p with Received | Claimed => false | _ => true end))
      with (p := Received) (p' := p');
      [by_cases_on_step|by_cases_on_step|by_cases_on_step|exact Hrun].
  - apply (run_at_most_once _
             (fun p => match p with
                       | Received | Claimed | Fetched => false
                       | _ => true
                       end))
      with (p := Received) (p' := p');
      [by_cases_on_step|by_cases_on_step|by_cases_on_step|exact Hrun].
  - apply (run_at_most_once _ reported) with (p := Received) (p' := p');
      [by_cases_on_step|by_cases_on_step|by_cases_on_step|exact Hrun].
  - apply (run_at_most_once _
             (fun p => match p with
                       | ExceptionReported | Acked => true
                       | _ => false
                       end))
      with (p := Received) (p' := p');
      [by_cases_on_step|by_cases_on_step|by_cases_on_step|exact Hrun].
  - apply (run_at_most_once _
             (fun p => match p with Acked => true | _ => false end))
      with (p := Received) (p' := p');
      [by_cases_on_step|by_cases_on_step|by_cases_on_step|exact Hrun].
Qed.

(** X6. Nothing is done for a task before it has been claimed: every call
    other than the claim and the acknowledgement comes after the claim
    call. *)
Theorem claim_comes_first env body h st :
  precedes is_claim is_task_work (events (process_message env body h st)).
Proof.
  destruct (process_message_run env body h st) as [p' Hrun].
  apply (run_precedes _ _ after_claim) with (p := Received) (p' := p');
    [by_cases_on_step|by_cases_on_step|done|exact Hrun].
Qed.

(** X7. The signing tool is never run without a token having been asked for
    the file at hand: each run of the tool comes after a token request, with
    no download between the two. *)
Theorem token_asked_before_signing env body h st :
  precedes_since is_post_token is_sign_tool is_download
    (events (process_message env body h st)).
Proof.
  destruct (process_message_run env body h st) as [p' Hrun].
  apply (run_precedes_since _ _ _
           (fun p => match p with TokenRequested => true | _ => false end))
    with (p := Received) (p' := p');
    [by_cases_on_step|by_cases_on_step|by_cases_on_step|done|exact Hrun].
Qed.

(** ** Messages without ids *)

Lemma getitem_lookup_error j k x :
  getitem j k = Raise x -> is_lookup_error x = true.
Proof. unfold getitem. repeat case_match; try done; by intros [= <-]. Qed.

Lemma getitem_last_lookup_error j x :
  getitem_last j = Raise x -> is_lookup_error x = true.
Proof. unfold getitem_last. repeat case_match; try done; by intros [= <-]. Qed.

Lemma body_task_id_lookup_error body x :
  body_task_id body = Raise x -> is_lookup_error x = true.
Proof.
  unfold body_task_id. destruct (getitem body "status") eqn:H1.
  - apply getitem_lookup_error.
  - intros [= <-]. by eapply getitem_lookup_error.
Qed.

Lemma body_run_id_lookup_error body x :
  body_run_id body = Raise x -> is_lookup_error x = true.
Proof.
  unfold body_run_id.
  destruct (getitem body "status") as [status|] eqn:H1;
    [|intros [= <-]; by eapply getitem_lookup_error].
  destruct (getitem status "runs") as [runs|] eqn:H2;
    [|intros [= <-]; by eapply getitem_lookup_error].
  destruct (getitem_last runs) as [r|] eqn:H3;
    [|intros [= <-]; by eapply getitem_last_lookup_error].
  apply getitem_lookup_error.
Qed.

(** X8. A message whose body does not give a task id and the run id of a
    last run (a key is missing, the list of runs is empty, a value has the
    wrong shape) is acknowledged and nothing else: no call is made on the
    task-tracking service, the store is unchanged and the handler returns
    normally. *)
Theorem message_without_ids_acked env body h st :
  is_ok (body_task_id body) && is_ok (body_run_id body) = false ->
  process_message env body h st = (Ok tt, st, [Ack]).
Proof.
  intros Hids. rewrite process_message_outcomes.
  assert (exists x, is_lookup_error x = true /\
            process_message_try env body h st = (Raise x, st, []))
    as (x & Hx & ->).
  { unfold process_message_try.
    destruct (body_task_id body) as [task_id|x] eqn:Ht.
    - destruct (body_run_id body) as [run_id|x] eqn:Hr; [done|].
      exists x. split; [by eapply body_run_id_lookup_error|].
      by rewrite bind_lift_Ok, bind_lift_Raise.
    - exists x. split; [by eapply body_task_id_lookup_error|].
      by rewrite bind_lift_Raise. }
  by destruct x.
Qed.

Lemma message_without_ids_acked_witness :
  process_message Scenario.all_well
    (Scenario.obj [("status", Scenario.obj [("taskId", JStr "T1");
                                            ("runs", JArr [])])])
    [] Scenario.start
  = (Ok tt, Scenario.start, [Ack]).
Proof.
  apply (message_without_ids_acked Scenario.all_well
           (Scenario.obj [("status", Scenario.obj [("taskId", JStr "T1");
                                                   ("runs", JArr [])])])
           [] Scenario.start).
  reflexivity.
Defined.

(** ** Fetching the manifest *)

Lemma get_manifest_once_run env u h st :
  get_manifest_once env (JStr u) h st =
    (manifest_answer env (requests_get env h u), st, [GetManifest u]).
Proof.
  unfold get_manifest_once, manifest_answer. rewrite bind_call.
  destruct (requests_get env h u) as [r|x]; [|done].
  unfold raise_for_status. destruct (is_error_status (status_code r)).
  - by rewrite bind_raise.
  - rewrite bind_ret. unfold lift, prepend. simpl. done.
Qed.

Lemma nth_manifest_answer_S env u h i :
  nth_manifest_answer env u h (S i) =
    nth_manifest_answer env u (h ++ [GetManifest u]) i.
Proof. unfold nth_manifest_answer. simpl. by rewrite <- app_assoc. Qed.

(** X9. [get_manifest] on a URL makes between one and ten requests, all to
    that URL, and changes nothing in the store. It stops at the first
    request that is answered well (no exception, no error status, a body
    that parses): every request before the last one made has failed, and
    the outcome of the last one, parsed body or exception, is the outcome
    of [get_manifest]; when that is an exception, all ten requests have
    been made. *)
Theorem get_manifest_requests env u h st :
  let fetched := get_manifest env (JStr u) h st in
  store_of fetched = st /\
  exists k,
    (k < attempts)%nat /\
    events fetched = replicate (S k) (GetManifest u) /\
    (forall i, (i < k)%nat ->
       is_ok (nth_manifest_answer env u h i) = false) /\
    result fetched = nth_manifest_answer env u h k /\
    (is_ok (result fetched) = false -> S k = attempts).
Proof.
  unfold get_manifest, retriable.
  assert (Hgen : forall n h,
    let fetched := retry_more n (get_manifest_once env (JStr u)) h st in
    store_of fetched = st /\
    exists k,
      (k <= n)%nat /\
      events fetched = replicate (S k) (GetManifest u) /\
      (forall i, (i < k)%nat ->
         is_ok (nth_manifest_answer env u h i) = false) /\
      result fetched = nth_manifest_answer env u h k /\
      (is_ok (result fetched) = false -> k = n)).
  { clear h. induction n as [|n IH]; intros h; cbn [retry_more]; cbv zeta.
    - rewrite get_manifest_once_run. split; [done|]. exists 0%nat.
      unfold nth_manifest_answer. simpl. rewrite app_nil_r.
      split; [lia|]. split; [done|]. split; [intros i Hi; lia|done].
    - pose proof (get_manifest_once_run env u h st) as Honce.
      destruct (manifest_answer env (requests_get env h u)) as [j|x] eqn:Hans.
      + rewrite (catch_Ok _ _ _ _ _ _ _ Honce). split; [done|].
        exists 0%nat. unfold nth_manifest_answer. simpl. rewrite app_nil_r.
        split; [lia|]. split; [done|]. split; [intros i Hi; lia|].
        split; [unfold result; simpl; by rewrite Hans|done].
      + rewrite (catch_Raise _ _ _ _ _ _ _ Honce).
        destruct (IH (h ++ [GetManifest u]))
          as (Hst & k & Hk & Hev & Hbefore & Hres & Hf).
        rewrite store_prepend, events_prepend, result_prepend.
        split; [done|]. exists (S k). rewrite Hev.
        split; [lia|]. split; [done|]. split; [|split].
        * intros [|i] Hi.
          -- unfold nth_manifest_answer. simpl. rewrite app_nil_r.
             by rewrite Hans.
          -- rewrite nth_manifest_answer_S. apply Hbefore. lia.
        * by rewrite nth_manifest_answer_S.
        * intros Hfail. by rewrite (Hf Hfail). }
  destruct (Hgen 9%nat h) as (Hst & k & Hk & Hev & Hbefore & Hres & Hf).
  split; [done|]. exists k. unfold attempts.
  split; [lia|]. split; [done|]. split; [done|]. split; [done|].
  intros Hfail. by rewrite (Hf Hfail).
Qed.

(** ** Uploading an artifact *)

(** X10. [create_artifact] sends nothing when the answer of
    [createArtifact] has no ["putUrl"] or when the file to send is not
    there: it raises, the creation is the only call made and the store is
    unchanged. *)
Theorem create_artifact_sends_nothing env task_id run_id dest abs_filename
    content_type h st res :
  tc_createArtifact env h task_id run_id dest content_type = Ok res ->
  is_ok (getitem res "putUrl") = false \/ files st !! abs_filename = None ->
  let uploading :=
    create_artifact env task_id run_id dest abs_filename content_type h st in
  is_ok (result uploading) = false /\
  store_of uploading = st /\
  events uploading =
    [CreateArtifact task_id run_id dest content_type (arrow_expires env h)].
Proof.
  intros Hcreate Hmiss uploading. unfold uploading, create_artifact.
  erewrite bind_Ok; [|by rewrite Hcreate].
  rewrite result_prepend, store_prepend, events_prepend.
  destruct (getitem res "putUrl") as [put_url|x];
    [|by rewrite bind_lift_Raise].
  destruct Hmiss as [Hmiss|Hmiss]; [done|].
  rewrite bind_lift_Ok.
  erewrite bind_Raise; [done|]. unfold read_file. by rewrite Hmiss.
Qed.

Lemma create_artifact_sends_nothing_witness :
  let uploading :=
    create_artifact Scenario.all_well (JStr "T1") (JInt 1)
      "public/env/firefox.mar" "/tmp/tmp0/firefox.mar" octet_stream []
      Scenario.start in
  is_ok (result uploading) = false /\
  store_of uploading = Scenario.start /\
  events uploading =
    [CreateArtifact (JStr "T1") (JInt 1) "public/env/firefox.mar" octet_stream
       (arrow_expires Scenario.all_well [])].
Proof.
  apply (create_artifact_sends_nothing Scenario.all_well (JStr "T1") (JInt 1)
           "public/env/firefox.mar" "/tmp/tmp0/firefox.mar" octet_stream []
           Scenario.start
           (Scenario.obj [("putUrl", JStr "https://queue.example.org/put")])).
  - reflexivity.
  - right. reflexivity.
Defined.

(** ** Downloads that fail *)

(** X11. When the download raises or is answered with an HTTP error status,
    [download_and_sign_file] raises that exception at once: the download is
    its only call and no file is written. The working directory it has just
    made is left in place. *)
Theorem download_failure_leaves_directory env task_id run_id url checksum
    h st x :
  request_failure (requests_get env h url) = Some x ->
  let handled := download_and_sign_file env task_id run_id url checksum h st in
  result handled = Raise x /\
  events handled = [Download url] /\
  files (store_of handled) = files st /\
  dirs (store_of handled) = {[work_dir_of st]} ∪ dirs st.
Proof.
  intros Hanswer handled. unfold handled, download_and_sign_file.
  erewrite bind_Ok; [|reflexivity]. rewrite app_nil_r, prepend_nil.
  rewrite bind_call. unfold request_failure in Hanswer.
  destruct (requests_get env h url) as [r|y].
  - unfold raise_for_status.
    destruct (is_error_status (status_code r)); [|done].
    injection Hanswer as <-. by rewrite bind_raise.
  - by injection Hanswer as <-.
Qed.

Lemma download_failure_leaves_directory_witness :
  let env :=
    Scenario.scenario (Ok JNull) (Ok tt) (Ok JNull) (Ok JNull)
      (fun _ => Scenario.put_url)
      (Ok {| status_code := 404; content := "not found" |})
      (fun _ => Scenario.ok_response "token") (Ok "signed") in
  let handled :=
    download_and_sign_file env (JStr "T1") (JInt 1) Scenario.file_url
      (JStr "sha:unsigned") [] Scenario.start in
  result handled = Raise (HTTPError 404) /\
  events handled = [Download Scenario.file_url] /\
  files (store_of handled) = files Scenario.start /\
  dirs (store_of handled) =
    {[work_dir_of Scenario.start]} ∪ dirs Scenario.start.
Proof.
  apply (download_failure_leaves_directory
           (Scenario.scenario (Ok JNull) (Ok tt) (Ok JNull) (Ok JNull)
              (fun _ => Scenario.put_url)
              (Ok {| status_code := 404; content := "not found" |})
              (fun _ => Scenario.ok_response "token") (Ok "signed"))
           (JStr "T1") (JInt 1) Scenario.file_url (JStr "sha:unsigned") []
           Scenario.start (HTTPError 404)).
  reflexivity.
Defined.

(** X12. A checksum mismatch costs nothing but the download: every file
    outside the working directory, the download itself apart, is as it was
    before [download_and_sign_file] started, and so is the consumer. *)
Theorem checksum_mismatch_frame env task_id run_id url checksum h st r path :
  let work_dir := work_dir_of st in
  let abs_filename := path_join work_dir (url_filename env url) in
  let handled := download_and_sign_file env task_id run_id url checksum h st in
  requests_get env h url = Ok r ->
  is_error_status (status_code r) = false ->
  writable (store_of (mkdtemp h st)) abs_filename = true ->
  str_eq_json (get_hash env (content r)) checksum = false ->
  under work_dir path = false ->
  path <> abs_filename ->
  files (store_of handled) !! path = files st !! path /\
  self (store_of handled) = self st.
Proof.
  intros work_dir abs_filename handled Hget Herr Hw Hsum Hout Hne.
  unfold handled.
  rewrite (download_and_sign_file_downloaded env task_id run_id url checksum
             h st r Hget Herr Hw).
  rewrite Hsum. simpl negb. cbv iota. rewrite store_prepend.
  unfold rmtree. rewrite bind_modify. unfold store_of, raise. simpl.
  split; [|done].
  fold work_dir abs_filename.
  destruct (files st !! path) as [data|] eqn:Hpath.
  - apply map_lookup_filter_Some. split; [|done].
    by rewrite lookup_insert_ne.
  - apply map_lookup_filter_None. left. by rewrite lookup_insert_ne.
Qed.

Lemma checksum_mismatch_frame_witness :
  let st :=
    {| self := Scenario.consumer; files := {["/etc/passwd" := "root"]};
       dirs := ∅; tmp_count := 0; rng_count := 0 |} in
  let handled :=
    download_and_sign_file Scenario.tampered (JStr "T1") (JInt 1)
      Scenario.file_url (JStr "sha:unsigned") [] st in
  files (store_of handled) !! "/etc/passwd" = files st !! "/etc/passwd" /\
  self (store_of handled) = self st.
Proof.
  apply (checksum_mismatch_frame Scenario.tampered (JStr "T1") (JInt 1)
           Scenario.file_url (JStr "sha:unsigned") []
           {| self := Scenario.consumer; files := {["/etc/passwd" := "root"]};
              dirs := ∅; tmp_count := 0; rng_count := 0 |}
           {| status_code := 200; content := "tampered" |} "/etc/passwd");
    try reflexivity.
  discriminate.
Defined.

(** ** Entries and manifests out of the ordinary *)

(** X13. An entry without a ["mar"] or a ["hash"] key, or that is not an
    object, ends the loop of [sign] with the lookup error before anything is
    asked of the outside world: no download is attempted for it. *)
Theorem entry_without_keys env task_id run_id url_prefix e h st :
  is_ok (getitem e "mar") && is_ok (getitem e "hash") = false ->
  exists x,
    is_lookup_error x = true /\
    sign_entry env task_id run_id url_prefix e h st = (Raise x, st, []).
Proof.
  intros Hkeys. unfold sign_entry.
  destruct (getitem e "mar") as [mar|x] eqn:Hmar.
  - destruct (getitem e "hash") as [checksum|x] eqn:Hhash; [done|].
    exists x. split; [by eapply getitem_lookup_error|].
    by rewrite bind_lift_Ok, bind_lift_Raise.
  - exists x. split; [by eapply getitem_lookup_error|].
    by rewrite bind_lift_Raise.
Qed.

Lemma entry_without_keys_witness :
  exists x,
    is_lookup_error x = true /\
    sign_entry Scenario.all_well (JStr "T1") (JInt 1) "https://example.org/build"
      (Scenario.obj [("mar", JStr "firefox.mar")]) [] Scenario.start
    = (Raise x, Scenario.start, []).
Proof.
  apply (entry_without_keys Scenario.all_well (JStr "T1") (JInt 1)
           "https://example.org/build"
           (Scenario.obj [("mar", JStr "firefox.mar")]) [] Scenario.start).
  reflexivity.
Defined.

Section Manifests.

Variable env : Env.

(** [sign] up to the loop, once the manifest is there. *)
Lemma sign_fetched task_id run_id task payload u m h st st_m e_m :
  getitem task "payload" = Ok payload ->
  getitem payload "signingManifest" = Ok (JStr u) ->
  get_manifest env (JStr u) h st = (Ok m, st_m, e_m) ->
  sign env task_id run_id task h st =
    prepend e_m
      ((entries <- lift (iter_json m);;
        entries' <- sign_entries env task_id run_id
                      (join "/" (removelast (split "/" u))) entries;;
        manifest_file <- mkstemp;;
        write_file manifest_file
          (json_dumps env
             match m with JArr _ => JArr entries' | other => other end);;;
        create_artifact env task_id run_id manifest_json manifest_file
          "application/json") (h ++ e_m) st_m).
Proof.
  intros Hpayload Hurl Hfetch. unfold sign.
  rewrite Hpayload, bind_lift_Ok, Hurl, bind_lift_Ok.
  rewrite (bind_Ok _ _ _ _ _ _ _ Hfetch). simpl as_str.
  by rewrite bind_lift_Ok.
Qed.

End Manifests.

(** X14. A manifest that cannot be iterated over (null, a number, a
    boolean) makes [sign] raise [TypeError] right after the fetch: nothing
    is downloaded and no manifest is uploaded. *)
Theorem manifest_not_iterable env task_id run_id task payload u m h st st_m e_m :
  getitem task "payload" = Ok payload ->
  getitem payload "signingManifest" = Ok (JStr u) ->
  get_manifest env (JStr u) h st = (Ok m, st_m, e_m) ->
  is_ok (iter_json m) = false ->
  sign env task_id run_id task h st = (Raise TypeError, st_m, e_m).
Proof.
  intros Hpayload Hurl Hfetch Hiter.
  rewrite (sign_fetched env task_id run_id task payload u m h st st_m e_m
             Hpayload Hurl Hfetch).
  destruct m; try done; simpl iter_json; rewrite bind_lift_Raise;
    unfold prepend; simpl; by rewrite app_nil_r.
Qed.

Lemma manifest_not_iterable_witness :
  sign (Cases.with_manifest JNull) (JStr "T1") (JInt 1) Scenario.task []
    Scenario.start
  = (Raise TypeError, Scenario.start, [GetManifest Scenario.manifest_url]).
Proof.
  apply (manifest_not_iterable (Cases.with_manifest JNull) (JStr "T1") (JInt 1)
           Scenario.task
           (Scenario.obj [("signingManifest", JStr Scenario.manifest_url)])
           Scenario.manifest_url JNull [] Scenario.start Scenario.start
           [GetManifest Scenario.manifest_url]); reflexivity.
Defined.

(** X15. A manifest without entries (an empty list; also an empty object or
    an empty string) is published as it was fetched: after the fetch, [sign]
    writes its serialisation to a new temporary file and does what
    [create_artifact] does for that file under [public/env/manifest.json];
    nothing is downloaded or signed. *)
Theorem manifest_without_entries env task_id run_id task payload u m
    h st st_m e_m :
  let manifest_file := tmp_name (tmp_count st_m) in
  getitem task "payload" = Ok payload ->
  getitem payload "signingManifest" = Ok (JStr u) ->
  get_manifest env (JStr u) h st = (Ok m, st_m, e_m) ->
  iter_json m = Ok [] ->
  writable (store_of (mkstemp [] st_m)) manifest_file = true ->
  sign env task_id run_id task h st =
    prepend e_m
      (create_artifact env task_id run_id manifest_json manifest_file
         "application/json" (h ++ e_m)
         (manifest_written st_m (json_dumps env m))).
Proof.
  intros manifest_file Hpayload Hurl Hfetch Hiter Hw.
  rewrite (sign_fetched env task_id run_id task payload u m h st st_m e_m
             Hpayload Hurl Hfetch).
  f_equal. rewrite Hiter, bind_lift_Ok. simpl sign_entries. rewrite bind_ret.
  erewrite bind_Ok; [|reflexivity]. rewrite app_nil_r, prepend_nil.
  fold manifest_file.
  assert (Hm : match m with JArr _ => JArr [] | other => other end = m).
  { destruct m as [| | | |l|]; try done. simpl in Hiter. by injection Hiter as ->. }
  rewrite Hm.
  assert (Hwrite : write_file manifest_file (json_dumps env m) (h ++ e_m)
                     (store_of (mkstemp [] st_m)) =
                   (Ok tt, manifest_written st_m (json_dumps env m), []))
    by (unfold write_file; by rewrite Hw).
  etrans; [apply bind_Ok; exact Hwrite|].
  by rewrite app_nil_r, prepend_nil.
Qed.

Lemma manifest_without_entries_witness :
  sign (Cases.with_manifest (JArr [])) (JStr "T1") (JInt 1) Scenario.task []
    Scenario.start
  = prepend [GetManifest Scenario.manifest_url]
      (create_artifact (Cases.with_manifest (JArr [])) (JStr "T1") (JInt 1)
         manifest_json (tmp_name (tmp_count Scenario.start)) "application/json"
         ([] ++ [GetManifest Scenario.manifest_url])
         (manifest_written Scenario.start
            (json_dumps (Cases.with_manifest (JArr [])) (JArr [])))).
Proof.
  apply (manifest_without_entries (Cases.with_manifest (JArr [])) (JStr "T1")
           (JInt 1) Scenario.task
           (Scenario.obj [("signingManifest", JStr Scenario.manifest_url)])
           Scenario.manifest_url (JArr []) [] Scenario.start Scenario.start
           [GetManifest Scenario.manifest_url]); reflexivity.
Defined.

(** ** What the pipeline calls *)

Section PipelineCalls.

Variable env : Env.

Let work := fun ev : Event => is_signing_work ev = true.

Lemma create_artifact_emits task_id run_id dest abs_filename content_type :
  emits work
    (create_artifact env task_id run_id dest abs_filename content_type).
Proof.
  unfold create_artifact. apply emits_bind.
  - intros h st. by repeat constructor.
  - intros res. apply emits_bind; [by apply emits_silent|]. intros put_url.
    apply emits_bind; [apply emits_silent; auto with runs|]. intros data.
    by apply emits_call.
Qed.

Lemma get_token_emits_work output_file : emits work (get_token env output_file).
Proof.
  intros h st. eapply Forall_impl; [apply get_token_emits|]. by intros [].
Qed.

Lemma sign_file_emits work_dir from_ to :
  emits work (sign_file env work_dir from_ to).
Proof.
  unfold sign_file. apply emits_bind; [apply get_token_emits_work|]. intros _.
  apply emits_bind; [by apply emits_silent|]. intros s.
  apply emits_bind; [by apply emits_silent|]. intros fs.
  apply emits_bind; [by apply emits_call|]. intros out. by apply emits_silent.
Qed.

Lemma download_and_sign_file_emits task_id run_id url checksum :
  emits work (download_and_sign_file env task_id run_id url checksum).
Proof.
  unfold download_and_sign_file.
  apply emits_bind; [by apply emits_silent|]. intros work_dir.
  apply emits_bind; [by apply emits_call|]. intros r.
  apply emits_bind; [apply emits_silent; auto with runs|]. intros _.
  apply emits_bind; [apply emits_silent; auto with runs|]. intros _.
  apply emits_bind; [apply emits_silent; auto with runs|]. intros data.
  case_match.
  - apply emits_bind; [by apply emits_silent|]. intros _. by apply emits_silent.
  - apply emits_bind; [apply sign_file_emits|]. intros _.
    apply emits_bind; [apply create_artifact_emits|]. intros _.
    by apply emits_silent.
Qed.

Lemma sign_entries_emits task_id run_id url_prefix entries :
  emits work (sign_entries env task_id run_id url_prefix entries).
Proof.
  induction entries as [|e rest IH]; simpl; [by apply emits_silent|].
  apply emits_bind.
  - unfold sign_entry.
    apply emits_bind; [by apply emits_silent|]. intros mar.
    apply emits_bind; [by apply emits_silent|]. intros checksum.
    apply emits_bind; [apply download_and_sign_file_emits|]. intros abs.
    apply emits_bind; [apply emits_silent; auto with runs|]. intros data.
    apply emits_bind; [by apply emits_silent|]. intros e1.
    by apply emits_silent.
  - intros e'. apply emits_bind; [done|]. intros rest'. by apply emits_silent.
Qed.

Lemma get_manifest_emits url : emits work (get_manifest env url).
Proof.
  unfold get_manifest, retriable. apply emits_retry_more.
  unfold get_manifest_once. destruct url; try by apply emits_silent.
  apply emits_bind; [by apply emits_call|]. intros r.
  apply emits_bind; [apply emits_silent; auto with runs|]. intros _.
  by apply emits_silent.
Qed.

Lemma sign_emits task_id run_id task : emits work (sign env task_id run_id task).
Proof.
  unfold sign.
  apply emits_bind; [by apply emits_silent|]. intros payload.
  apply emits_bind; [by apply emits_silent|]. intros manifest_url.
  apply emits_bind; [apply get_manifest_emits|]. intros signing_manifest.
  apply emits_bind; [by apply emits_silent|]. intros u.
  apply emits_bind; [by apply emits_silent|]. intros entries.
  apply emits_bind; [apply sign_entries_emits|]. intros entries'.
  apply emits_bind; [by apply emits_silent|]. intros manifest_file.
  apply emits_bind; [apply emits_silent; auto with runs|]. intros _.
  apply create_artifact_emits.
Qed.

End PipelineCalls.

(** X16. [sign] keeps to its own business: whatever the task and the answers
    of the outside world, every call it makes is a fetch (manifest or file),
    a token request, a run of the signing tool or an upload call; it never
    claims, validates, reports or acknowledges. *)
Theorem sign_only_signs env task_id run_id task h st :
  Forall (fun ev => is_signing_work ev = true)
    (events (sign env task_id run_id task h st)).
Proof. apply sign_emits. Qed.

(** ** The manifest and the uploads agree *)

Ltac invert_run H :=
  let a := fresh "a" in
  let st1 := fresh "st" in
  let e1 := fresh "e" in
  let Hm := fresh "Hrun" in
  let Heq := fresh "Heq" in
  destruct (bind_Ok_inv _ _ _ _ H) as (a & st1 & e1 & Hm & Heq);
  rewrite Heq in H |- *; rewrite result_prepend in H;
  rewrite ?events_prepend, ?result_prepend, ?store_prepend; clear Heq.

(** When [download_and_sign_file] returns, its last call has sent the
    content the returned file holds. *)
Lemma download_and_sign_file_returns env task_id run_id url checksum h st :
  let handled := download_and_sign_file env task_id run_id url checksum h st in
  is_ok (result handled) = true ->
  exists abs_filename data put_url before,
    result handled = Ok abs_filename /\
    events handled =
      before ++ [PutFile abs_filename data put_url octet_stream] /\
    files (store_of handled) !! abs_filename = Some data.
Proof.
  intros handled Hok. unfold handled, download_and_sign_file in *.
  invert_run Hok. injection Hrun as <- <- <-.
  invert_run Hok. invert_run Hok. invert_run Hok. invert_run Hok.
  destruct (negb _).
  { unfold rmtree in Hok. by rewrite bind_modify in Hok. }
  invert_run Hok. invert_run Hok.
  match type of Hrun4 with
  | create_artifact _ _ _ _ ?f _ ?h' ?st' = _ =>
      destruct (create_artifact_spec env task_id run_id
                  ("public/env/" +:+ url_filename env url) f octet_stream
                  h' st') as [Hst Hup]
  end.
  rewrite Hrun4 in Hst, Hup. unfold store_of, result, events in Hst, Hup.
  simpl in Hst, Hup. subst.
  destruct Hup as [[Hfail _]|(data & put_url & Hdata & ->)]; [done|].
  eexists _, data, put_url, _. split; [done|]. split; [|done].
  unfold events, ret. simpl. rewrite !app_nil_r.
  instantiate (1 := e ++ e0 ++ e1 ++ e2 ++ e3 ++ [_]).
  by rewrite <- !app_assoc.
Qed.

(** X17. The manifest describes what was uploaded: when the body of the loop
    of [sign] returns for an entry, the last call it made has sent a file,
    and the entry now holds the hash of the content sent under ["hash"] and
    its length under ["size"]. *)
Theorem entry_describes_upload env task_id run_id url_prefix e h st :
  let handled := sign_entry env task_id run_id url_prefix e h st in
  is_ok (result handled) = true ->
  exists e' abs_filename data put_url before,
    result handled = Ok e' /\
    events handled =
      before ++ [PutFile abs_filename data put_url octet_stream] /\
    getitem e' "hash" = Ok (JStr (get_hash env data)) /\
    getitem e' "size" = Ok (JInt (Z.of_nat (String.length data))).
Proof.
  intros handled Hok. unfold handled, sign_entry in *.
  invert_run Hok. apply lift_Ok_inv in Hrun as (Hmar & -> & ->).
  invert_run Hok. apply lift_Ok_inv in Hrun as (Hhash & -> & ->).
  rewrite !app_nil_r in *.
  destruct e as [| | | |l|fields]; try done.
  pose proof (download_and_sign_file_returns env task_id run_id
                (url_prefix +:+ "/" +:+ format_json env a) a0 h st) as Hfile.
  simpl in Hfile.
  invert_run Hok. rewrite Hrun in Hfile.
  destruct (Hfile eq_refl)
    as (abs_filename & data & put_url & before & [= ->] & Hev & Hdata).
  unfold events, store_of in Hev, Hdata. simpl in Hev, Hdata. subst.
  assert (Hread : read_file abs_filename (h ++ before ++ [PutFile abs_filename
                    data put_url octet_stream]) st0 = (Ok data, st0, []))
    by (unfold read_file; by rewrite Hdata).
  rewrite (bind_pure _ _ _ _ _ Hread). simpl setitem. rewrite bind_lift_Ok.
  eexists _, abs_filename, data, put_url, before.
  split; [done|]. split; [by rewrite !app_nil_r|].
  simpl. rewrite lookup_insert_ne by done. by rewrite !lookup_insert_eq.
Qed.

Lemma entry_describes_upload_witness :
  let handled :=
    sign_entry Scenario.all_well (JStr "T1") (JInt 1)
      "https://example.org/build" Scenario.entry [] Scenario.start in
  exists e' abs_filename data put_url before,
    result handled = Ok e' /\
    events handled =
      before ++ [PutFile abs_filename data put_url octet_stream] /\
    getitem e' "hash" = Ok (JStr (get_hash Scenario.all_well data)) /\
    getitem e' "size" = Ok (JInt (Z.of_nat (String.length data))).
Proof.
  apply (entry_describes_upload Scenario.all_well (JStr "T1") (JInt 1)
           "https://example.org/build" Scenario.entry [] Scenario.start).
  reflexivity.
Defined.

(** ** The pool and the token *)

(** X18. [random.shuffle] as [get_token] uses it gives a permutation of the
    pool, whatever is drawn, and leaves a pool of at most one server as it
    is. *)
Theorem shuffle_permutes env c (x : list string) :
  Permutation (shuffle env c x) x /\
  ((length x <= 1)%nat -> shuffle env c x = x).
Proof.
  split; [apply shuffle_Permutation|].
  intros Hlen. unfold shuffle.
  by replace (length x - 1)%nat with 0%nat by lia.
Qed.

Lemma retry_more_invariant {A} (action : M A) (R : Store -> Store -> Prop) :
  (forall s1 s2 s3, R s1 s2 -> R s2 s3 -> R s1 s3) ->
  (forall h st, R st (store_of (action h st))) ->
  forall n h st, R st (store_of (retry_more n action h st)).
Proof.
  intros Htrans Hact. induction n as [|n IH]; intros h st; simpl; [done|].
  specialize (Hact h st).
  destruct (action h st) as [[[a|x] st1] e1] eqn:Hrun.
  - by rewrite (catch_Ok _ _ _ _ _ _ _ Hrun).
  - rewrite (catch_Raise _ _ _ _ _ _ _ Hrun), store_prepend.
    eapply Htrans; [exact Hact|]. apply IH.
Qed.

Section Passes.

Variable env : Env.

(** The store a pass of [get_token] works in, once the pool is shuffled. *)
Let shuffled (st : Store) : Store :=
  {| self := set_signing_servers
               (shuffle env (rng_count st) (signing_servers (self st)))
               (self st);
     files := files st; dirs := dirs st; tmp_count := tmp_count st;
     rng_count := (rng_count st + (length (signing_servers (self st)) - 1))%nat
  |}.

Lemma get_token_once_run output_file h st :
  get_token_once env output_file h st =
    match token_loop env (signing_server_auth (self st))
            (signing_servers (self (shuffled st))) h (shuffled st) with
    | (Ok None, st2, e2) => (Raise SigningServerError, st2, e2)
    | (Ok (Some t), st2, e2) =>
        prepend e2 (write_file output_file t (h ++ e2) st2)
    | (Raise x, st2, e2) => (Raise x, st2, e2)
    end.
Proof.
  unfold get_token_once, shuffle_signing_servers.
  rewrite bind_modify, bind_gets, bind_gets. fold (shuffled st). simpl.
  destruct (token_loop env (signing_server_auth (self st))
              (shuffle env (rng_count st) (signing_servers (self st))) h
              (shuffled st)) as [[[[t|]|x] st2] e2] eqn:Hl.
  - by rewrite (bind_Ok _ _ _ _ _ _ _ Hl).
  - rewrite (bind_Ok _ _ _ _ _ _ _ Hl). unfold raise, prepend. simpl.
    by rewrite app_nil_r.
  - by rewrite (bind_Raise _ _ _ _ _ _ _ Hl).
Qed.

Lemma token_answer_token a t : token_answer a = Ok (Some t) -> t <> EmptyString.
Proof.
  unfold token_answer. destruct a as [r|x]; [|done].
  destruct (is_error_status _); [done|]. case_bool_decide; [done|].
  by intros [= <-].
Qed.

(** One pass: at most one request per server, the pool keeps its size, only
    the output file is written, and it is written with a token that is not
    empty. *)
Lemma get_token_once_facts output_file h st :
  let pass := get_token_once env output_file h st in
  (length (events pass) <= length (signing_servers (self st)))%nat /\
  length (signing_servers (self (store_of pass))) =
    length (signing_servers (self st)) /\
  dirs (store_of pass) = dirs st /\
  (forall path, path <> output_file ->
     files (store_of pass) !! path = files st !! path) /\
  (is_ok (result pass) = true ->
   exists t, t <> EmptyString /\ files (store_of pass) !! output_file = Some t).
Proof.
  intros pass. unfold pass. rewrite get_token_once_run.
  pose proof (shuffle_Permutation env (rng_count st)
                (signing_servers (self st))) as Hperm.
  apply Permutation_length in Hperm.
  destruct (token_loop_spec env (signing_server_auth (self st))
              (signing_servers (self (shuffled st))) h (shuffled st))
    as [Hst (n & Hn & Hres)].
  destruct (token_loop env _ _ h (shuffled st)) as [[r st2] e2] eqn:Hl.
  unfold store_of, result, events in Hst, Hres. simpl in Hst, Hres. subst st2.
  assert (Hlen : (length e2 <= length (signing_servers (self st)))%nat).
  { rewrite <- Hperm.
    destruct r as [[t|]|x]; destruct Hres as [_ ->];
      rewrite length_fmap, ?length_take; unfold shuffled;
      cbn [self signing_servers set_signing_servers]; lia. }
  destruct r as [[t|]|x]; [|by repeat split|by repeat split].
  rewrite events_prepend, store_prepend, result_prepend.
  destruct Hres as [Hans _]. unfold nth_answer in Hans.
  destruct (_ !! n); [|done]. injection Hans as Hans.
  apply token_answer_token in Hans.
  unfold write_file. destruct (writable _ _); simpl; rewrite app_nil_r.
  - repeat split; try done.
    + intros path Hne. by rewrite lookup_insert_ne.
    + intros _. exists t. split; [done|]. by rewrite lookup_insert_eq.
  - by repeat split.
Qed.

End Passes.

(** X19. [get_token] makes at most ten requests per configured server: the
    number of token requests of one acquisition is bounded by [attempts]
    times the size of the pool. *)
Theorem token_requests_bounded env output_file h st :
  (length (events (get_token env output_file h st))
   <= attempts * length (signing_servers (self st)))%nat.
Proof.
  unfold get_token, retriable.
  assert (Hgen : forall n h st,
    (length (events (retry_more n (get_token_once env output_file) h st))
     <= S n * length (signing_servers (self st)))%nat).
  { clear h st. induction n as [|n IH]; intros h st; cbn [retry_more].
    - destruct (get_token_once_facts env output_file h st) as (Hlen & _). lia.
    - destruct (get_token_once_facts env output_file h st)
        as (Hlen & Hpool & _).
      destruct (get_token_once env output_file h st) as [[[a|x] st1] e1]
        eqn:Hrun; unfold events, store_of in Hlen, Hpool; simpl in Hlen, Hpool.
      + rewrite (catch_Ok _ _ _ _ _ _ _ Hrun). unfold events. simpl. lia.
      + rewrite (catch_Raise _ _ _ _ _ _ _ Hrun), events_prepend, length_app.
        specialize (IH (h ++ e1) st1). rewrite Hpool in IH. lia. }
  apply (Hgen 9%nat).
Qed.

(** X20. A token file is never written empty: when [get_token] returns, the
    output file holds a token that is not the empty string. *)
Theorem token_never_empty env output_file h st :
  is_ok (result (get_token env output_file h st)) = true ->
  exists t,
    t <> EmptyString /\
    files (store_of (get_token env output_file h st)) !! output_file = Some t.
Proof.
  unfold get_token, retriable. intros Hok.
  destruct (retry_more_after_failures (get_token_once env output_file)
              (attempts - 1) h st)
    as (k & h' & st' & _ & _ & Hr & Hs & _).
  rewrite Hs. rewrite Hr in Hok.
  by apply (get_token_once_facts env output_file h' st').
Qed.

Lemma token_never_empty_witness :
  exists t,
    t <> EmptyString /\
    files (store_of (get_token Scenario.all_well "/tmp/token" []
                       Scenario.start)) !! "/tmp/token" = Some t.
Proof.
  apply (token_never_empty Scenario.all_well "/tmp/token" []
           Scenario.start).
  reflexivity.
Defined.

Lemma get_token_files env output_file h st path :
  path <> output_file ->
  files (store_of (get_token env output_file h st)) !! path = files st !! path /\
  dirs (store_of (get_token env output_file h st)) = dirs st.
Proof.
  intros Hne. unfold get_token, retriable.
  apply (retry_more_invariant (get_token_once env output_file)
           (fun s s' => files s' !! path = files s !! path /\ dirs s' = dirs s)).
  - intros s1 s2 s3 [H1 H2] [H3 H4]. split; congruence.
  - intros h0 st0.
    destruct (get_token_once_facts env output_file h0 st0)
      as (_ & _ & Hdirs & Hfiles & _).
    split; [by apply Hfiles|done].
Qed.

(** X21. Token acquisition writes the output file and nothing else: every
    other file is as it was, and no directory is made or removed, however
    many passes are made and whether a token is obtained or not. *)
Theorem token_acquisition_frame env output_file h st path :
  path <> output_file ->
  files (store_of (get_token env output_file h st)) !! path = files st !! path /\
  dirs (store_of (get_token env output_file h st)) = dirs st.
Proof. apply get_token_files. Qed.

Lemma token_acquisition_frame_witness :
  files (store_of (get_token Scenario.all_well "/tmp/token" []
                     Scenario.start)) !! "/tmp/other"
    = files Scenario.start !! "/tmp/other" /\
  dirs (store_of (get_token Scenario.all_well "/tmp/token" []
                    Scenario.start)) = dirs Scenario.start.
Proof.
  apply (token_acquisition_frame Scenario.all_well "/tmp/token" []
           Scenario.start "/tmp/other").
  discriminate.
Defined.

(** ** Running the signing tool *)

Lemma same_configuration_self s s' :
  same_configuration s s' -> s' = set_signing_servers (signing_servers s') s.
Proof.
  unfold same_configuration. intros (?&?&?&?&?&?&?&?&?&?&?&?).
  destruct s, s'. simpl in *. unfold set_signing_servers. simpl. congruence.
Qed.

(** X22. The command line of the signing tool: whenever [sign_file] runs the
    tool, it runs it in the working directory, on the command line built
    from the consumer's configuration with every configured signing server
    named once (in the order the last shuffle left), the nonce and token
    files of the working directory, and the input as output when no output
    is given. *)
Theorem signing_tool_command env work_dir from_ to h st cmd cwd :
  SignTool cmd cwd ∈ events (sign_file env work_dir from_ to h st) ->
  cwd = work_dir /\
  exists servers,
    Permutation servers (signing_servers (self st)) /\
    cmd = signtool_cmd (set_signing_servers servers (self st))
            (path_join work_dir "nonce") (path_join work_dir "token")
            (default from_ to) from_.
Proof.
  unfold sign_file. intros Hin.
  pose proof (get_token_emits env (path_join work_dir "token") h st) as Hposts.
  pose proof (keeps_get_token env (path_join work_dir "token") h st) as Hkeep.
  destruct (get_token env (path_join work_dir "token") h st)
    as [[[[]|x] st1] e1] eqn:Htoken;
    unfold events, store_of in Hposts, Hkeep; simpl in Hposts, Hkeep.
  2:{ rewrite (bind_Raise _ _ _ _ _ _ _ Htoken) in Hin.
      unfold events in Hin. simpl in Hin.
      rewrite Forall_forall in Hposts. by specialize (Hposts _ Hin). }
  rewrite (bind_Ok _ _ _ _ _ _ _ Htoken), bind_gets, bind_gets, bind_call in Hin.
  assert (Hev : SignTool cmd cwd =
                SignTool (signtool_cmd (self st1) (path_join work_dir "nonce")
                            (path_join work_dir "token") (default from_ to)
                            from_) work_dir).
  { rewrite events_prepend in Hin.
    apply elem_of_app in Hin as [Hin|Hin].
    { rewrite Forall_forall in Hposts. by specialize (Hposts _ Hin). }
    destruct (sh_python env _ _ _ _); unfold events in Hin; simpl in Hin;
      rewrite ?app_nil_r in Hin; by apply list_elem_of_singleton in Hin. }
  injection Hev as -> ->. split; [done|].
  exists (signing_servers (self st1)). split; [apply Hkeep|].
  f_equal. by apply same_configuration_self.
Qed.

Lemma signing_tool_command_witness :
  let cmd :=
    ["/builds/tools/release/signing/signtool.py"; "-n"; "/tmp/tmp0/nonce";
     "-t"; "/tmp/tmp0/token"; "-c"; "/builds/tools/release/signing/host.cert";
     "-H"; "signing2"; "-H"; "signing1"; "-f"; "mar"; "-f"; "gpg";
     "-o"; "firefox.mar"; "firefox.mar"] in
  "/tmp/tmp0" = "/tmp/tmp0" /\
  exists servers,
    Permutation servers (signing_servers (self Scenario.start)) /\
    cmd = signtool_cmd (set_signing_servers servers (self Scenario.start))
            (path_join "/tmp/tmp0" "nonce") (path_join "/tmp/tmp0" "token")
            (default "firefox.mar" None) "firefox.mar".
Proof.
  apply (signing_tool_command Scenario.all_well "/tmp/tmp0" "firefox.mar" None
           [] (store_of (mkdtemp [] Scenario.start))).
  vm_compute. by repeat constructor.
Defined.

(** ** What a message starts with and what leaves the handler *)

Lemma process_message_events env body h st :
  exists rest,
    events (process_message env body h st) =
      events (process_message_try env body h st) ++ rest.
Proof.
  rewrite process_message_outcomes.
  destruct (process_message_try env body h st) as [[[[]|x] st1] e1];
    [by eexists|].
  destruct x; try (by eexists).
  - case_bool_decide; [by eexists|]. exists []. unfold events. simpl.
    by rewrite app_nil_r.
  - simpl. destruct (tc_reportException _ _ _ _ _); by eexists.
  - simpl. destruct (tc_reportException _ _ _ _ _); by eexists.
Qed.

(** X24. The first call made for a message with ids claims the task for
    the last run the message lists, with the worker type of the consumer as
    worker group and as worker id. *)
Theorem claims_last_run env body h st status task_id runs run run_id :
  getitem body "status" = Ok status ->
  getitem status "taskId" = Ok task_id ->
  getitem status "runs" = Ok (JArr (runs ++ [run])) ->
  getitem run "runId" = Ok run_id ->
  head (events (process_message env body h st)) =
    Some (ClaimTask task_id run_id (worker_type (self st))
            (worker_type (self st))).
Proof.
  intros Hstatus Htask Hruns Hrun.
  destruct (process_message_events env body h st) as [rest ->].
  assert (Ht : body_task_id body = Ok task_id)
    by (unfold body_task_id; by rewrite Hstatus).
  assert (Hr : body_run_id body = Ok run_id).
  { unfold body_run_id. rewrite Hstatus, Hruns. simpl.
    by rewrite last_snoc. }
  unfold process_message_try.
  rewrite Ht, bind_lift_Ok, Hr, bind_lift_Ok, bind_gets, bind_call.
  by destruct (tc_claimTask _ _ _ _ _ _).
Qed.

Lemma claims_last_run_witness :
  head (events (process_message Scenario.all_well Scenario.body []
                  Scenario.start)) =
    Some (ClaimTask (JStr "T1") (JInt 1)
            (worker_type (self Scenario.start))
            (worker_type (self Scenario.start))).
Proof.
  apply (claims_last_run Scenario.all_well Scenario.body [] Scenario.start
           (Scenario.obj [("taskId", JStr "T1");
                          ("runs", JArr [Scenario.obj [("runId", JInt 0)];
                                         Scenario.obj [("runId", JInt 1)]])])
           (JStr "T1") [Scenario.obj [("runId", JInt 0)]]
           (Scenario.obj [("runId", JInt 1)]) (JInt 1)); reflexivity.
Defined.

Lemma process_message_try_without_ids env body h st :
  is_ok (body_task_id body) && is_ok (body_run_id body) = false ->
  exists x,
    is_lookup_error x = true /\
    process_message_try env body h st = (Raise x, st, []).
Proof.
  intros Hids. unfold process_message_try.
  destruct (body_task_id body) as [task_id|x] eqn:Ht.
  - destruct (body_run_id body) as [run_id|x] eqn:Hr; [done|].
    exists x. split; [by eapply body_run_id_lookup_error|].
    by rewrite bind_lift_Ok, bind_lift_Raise.
  - exists x. split; [by eapply body_task_id_lookup_error|].
    by rewrite bind_lift_Raise.
Qed.

Lemma message_without_ids_acked_helper env body h st :
  is_ok (body_task_id body) && is_ok (body_run_id body) = false ->
  events (process_message env body h st) = [Ack].
Proof.
  intros Hids. rewrite process_message_outcomes.
  destruct (process_message_try_without_ids env body h st Hids)
    as (x & Hx & ->).
  by destruct x.
Qed.

(** X25. An exception is only ever reported for a task the message names:
    every call of [reportException] made for a message carries the task id
    and the run id read from its body, never [None], and the reason
    ["malformed-payload"]. *)
Theorem exception_reports_name_task env body h st ev :
  ev ∈ events (process_message env body h st) ->
  is_report_exception ev = true ->
  exists task_id run_id,
    body_task_id body = Ok task_id /\
    body_run_id body = Ok run_id /\
    ev = ReportException (Some task_id) (Some run_id) "malformed-payload".
Proof.
  intros Hin Hev.
  pose proof (process_message_try_no_report_exception env body h st) as Hno.
  rewrite Forall_forall in Hno.
  assert (Hids : is_ok (body_task_id body) && is_ok (body_run_id body) = true ->
            exists task_id run_id,
              body_task_id body = Ok task_id /\ body_run_id body = Ok run_id /\
              ReportException (local_task_id body) (local_run_id body)
                malformed_payload =
              ReportException (Some task_id) (Some run_id) "malformed-payload").
  { unfold local_task_id, local_run_id.
    destruct (body_task_id body) as [t|]; [|done].
    destruct (body_run_id body) as [r|]; [|done]. by exists t, r. }
  destruct (is_ok (body_task_id body) && is_ok (body_run_id body)) eqn:Hok.
  2:{ rewrite message_without_ids_acked_helper in Hin by done.
      apply list_elem_of_singleton in Hin. by subst. }
  specialize (Hids eq_refl).
  rewrite process_message_outcomes in Hin.
  destruct (process_message_try env body h st) as [[[[]|x] st1] e1];
    unfold events in Hin, Hno; simpl in Hin, Hno.
  { apply elem_of_app in Hin as [Hin|Hin%list_elem_of_singleton];
      [by rewrite (Hno _ Hin) in Hev|by subst]. }
  assert (Hcases : ev ∈ e1 ++ [Ack] \/ ev ∈ e1 \/
            (is_verification_error x = true /\
             ev ∈ e1 ++ [ReportException (local_task_id body)
                           (local_run_id body) malformed_payload; Ack])).
  { destruct x; auto.
    - case_bool_decide; auto.
    - right. right. split; [done|].
      destruct (tc_reportException _ _ _ _ _); [done|].
      unfold events in Hin. simpl in Hin.
      apply elem_of_app in Hin as [Hin|Hin]; apply elem_of_app; [by left|].
      right. apply list_elem_of_singleton in Hin. subst. by left.
    - right. right. split; [done|].
      destruct (tc_reportException _ _ _ _ _); [done|].
      unfold events in Hin. simpl in Hin.
      apply elem_of_app in Hin as [Hin|Hin]; apply elem_of_app; [by left|].
      right. apply list_elem_of_singleton in Hin. subst. by left. }
  destruct Hcases as [Hc|[Hc|[_ Hc]]].
  - apply elem_of_app in Hc as [Hc|Hc%list_elem_of_singleton];
      [by rewrite (Hno _ Hc) in Hev|by subst].
  - by rewrite (Hno _ Hc) in Hev.
  - apply elem_of_app in Hc as [Hc|Hc]; [by rewrite (Hno _ Hc) in Hev|].
    apply elem_of_cons in Hc as [->|Hc%list_elem_of_singleton]; [done|by subst].
Qed.

Lemma exception_reports_name_task_witness :
  exists task_id run_id,
    body_task_id Scenario.body = Ok task_id /\
    body_run_id Scenario.body = Ok run_id /\
    ReportException (Some (JStr "T1")) (Some (JInt 1)) "malformed-payload" =
      ReportException (Some task_id) (Some run_id) "malformed-payload".
Proof.
  apply (exception_reports_name_task Scenario.bad_scope Scenario.body []
           Scenario.start).
  - vm_compute. by repeat constructor.
  - reflexivity.
Defined.

(** X26. What can leave the handler: an exception leaves [process_message]
    only as a task-tracking failure with a status other than 409 raised in
    the [try] block, or as whatever [reportException] raised while a
    verification error was being reported. *)
Theorem exceptions_leaving_handler env body h st x :
  result (process_message env body h st) = Raise x ->
  let tried := process_message_try env body h st in
  (exists code,
     x = TaskclusterRestFailure code /\ code <> 409 /\
     result tried = Raise x) \/
  (exists y,
     is_verification_error y = true /\ result tried = Raise y /\
     tc_reportException env (h ++ events tried) (local_task_id body)
       (local_run_id body) malformed_payload = Raise x).
Proof.
  rewrite process_message_outcomes. intros Hres tried. unfold tried.
  destruct (process_message_try env body h st) as [[[[]|y] st1] e1];
    [done|].
  destruct y; try done.
  - case_bool_decide; [done|]. injection Hres as <-. left. by eexists.
  - right. exists TaskVerificationError. simpl in *.
    destruct (tc_reportException _ _ _ _ _); [done|].
    by injection Hres as ->.
  - right. exists ValidationError. simpl in *.
    destruct (tc_reportException _ _ _ _ _); [done|].
    by injection Hres as ->.
Qed.

Lemma exceptions_leaving_handler_witness :
  let tried :=
    process_message_try Scenario.claim_failure Scenario.body []
      Scenario.start in
  (exists code,
     TaskclusterRestFailure 500 = TaskclusterRestFailure code /\
     code <> 409 /\
     result tried = Raise (TaskclusterRestFailure 500)) \/
  (exists y,
     is_verification_error y = true /\ result tried = Raise y /\
     tc_reportException Scenario.claim_failure ([] ++ events tried)
       (local_task_id Scenario.body) (local_run_id Scenario.body)
       malformed_payload = Raise (TaskclusterRestFailure 500)).
Proof.
  apply (exceptions_leaving_handler Scenario.claim_failure Scenario.body []
           Scenario.start (TaskclusterRestFailure 500)).
  reflexivity.
Defined.

(** ** Working directories are kept *)

Lemma get_token_dirs env output_file h st :
  dirs (store_of (get_token env output_file h st)) = dirs st.
Proof.
  unfold get_token, retriable.
  apply (retry_more_invariant (get_token_once env output_file)
           (fun s s' => dirs s' = dirs s)).
  - intros s1 s2 s3. congruence.
  - intros h0 st0.
    by destruct (get_token_once_facts env output_file h0 st0) as (_ & _ & ? & _).
Qed.

Lemma sign_file_dirs env work_dir from_ to h st :
  dirs (store_of (sign_file env work_dir from_ to h st)) = dirs st.
Proof.
  unfold sign_file.
  pose proof (get_token_dirs env (path_join work_dir "token") h st) as Hdirs.
  destruct (get_token env (path_join work_dir "token") h st)
    as [[[[]|x] st1] e1] eqn:Hrun; unfold store_of in Hdirs; simpl in Hdirs.
  2:{ by rewrite (bind_Raise _ _ _ _ _ _ _ Hrun). }
  rewrite (bind_Ok _ _ _ _ _ _ _ Hrun), bind_gets, bind_gets, bind_call.
  by destruct (sh_python env _ _ _ _) as [out|x].
Qed.

(** X27. The working directory of a signed file is never cleaned up: when
    [download_and_sign_file] returns, it returns the path of the file in the
    directory it made, and that directory is still there. *)
Theorem working_directory_kept env task_id run_id url checksum h st :
  let handled := download_and_sign_file env task_id run_id url checksum h st in
  is_ok (result handled) = true ->
  result handled = Ok (path_join (work_dir_of st) (url_filename env url)) /\
  work_dir_of st ∈ dirs (store_of handled).
Proof.
  intros handled Hok. unfold handled, download_and_sign_file in *.
  invert_run Hok. injection Hrun as <- <- <-.
  invert_run Hok. invert_run Hok. invert_run Hok. invert_run Hok.
  destruct (negb _).
  { unfold rmtree in Hok. by rewrite bind_modify in Hok. }
  invert_run Hok. invert_run Hok.
  unfold call in Hrun. injection Hrun as _ <- _.
  unfold raise_for_status in Hrun0.
  destruct (is_error_status _); [done|]. injection Hrun0 as _ <- _.
  unfold write_file in Hrun1. destruct (writable _ _); [|done].
  injection Hrun1 as _ <- _.
  unfold read_file in Hrun2. destruct (_ !! _); [|done].
  injection Hrun2 as _ <- _.
  match type of Hrun3 with
  | sign_file _ ?w ?f ?t ?h' ?s' = _ =>
      pose proof (sign_file_dirs env w f t h' s') as Hd3;
      rewrite Hrun3 in Hd3
  end.
  match type of Hrun4 with
  | create_artifact _ _ _ ?d ?f ?c ?h' ?s' = _ =>
      destruct (create_artifact_spec env task_id run_id d f c h' s')
        as [Hd4 _]; rewrite Hrun4 in Hd4
  end.
  unfold store_of in Hd3, Hd4. simpl in Hd3, Hd4. subst.
  split; [done|]. unfold ret, store_of. simpl. rewrite Hd3. simpl.
  apply elem_of_union. left. by apply elem_of_singleton.
Qed.

Lemma working_directory_kept_witness :
  let handled :=
    download_and_sign_file Scenario.all_well (JStr "T1") (JInt 1)
      Scenario.file_url (JStr "sha:unsigned") [] Scenario.start in
  result handled =
    Ok (path_join (work_dir_of Scenario.start)
          (url_filename Scenario.all_well Scenario.file_url)) /\
  work_dir_of Scenario.start ∈ dirs (store_of handled).
Proof.
  apply (working_directory_kept Scenario.all_well (JStr "T1") (JInt 1)
           Scenario.file_url (JStr "sha:unsigned") [] Scenario.start).
  reflexivity.
Defined.
